(** * pyroadacoustics: the variable-length fractional delay line

    A shallow embedding of [src/DelayLine.py] and the properties its
    specification states about it.

    Number model.  Python [float]s and the entries of numpy [float64]
    arrays are modelled as exact rationals ([Q]); rounding, overflow, [inf]
    and [nan] are not modelled there.  Python [int]s are [Z].  The
    transcendental numpy routines used by the [Sinc] mode ([np.sinc],
    [np.hanning]) have no rational values: in the rational model they are
    built from Section variables ([np_pi], [np_cos], [np_sin]), and the
    coefficient routine is embedded a second time over the reals in
    [Module Real], where [sin], [cos] and [PI] are the Standard Library's.
    Where rounding decides what a method does (a pointer that reaches [N], a
    loop that makes no progress), the methods are embedded once more in
    [Module Float64], on IEEE 754 binary64 numbers.

    Object model.  A method is a function from the object's state to an
    outcome and the state the object is left in, so that what an exception
    leaves behind is part of the model. *)

From stdpp Require Import base list strings.
From Stdlib Require Import ZArith QArith Qround Qabs Reals SpecFloat Lia Psatz.

Open Scope Z_scope.
Open Scope Q_scope.

(** ** Exceptions and outcomes *)

Inductive exn : Type :=
| ValueError (msg : string)
| RuntimeError (msg : string)
| IndexError
| OverflowError
| Timeout.   (* the model's loop budget ran out: not a Python exception *)

Inductive result (A : Type) : Type :=
| Ok (a : A)
| Raise (e : exn).
Arguments Ok {A} a.
Arguments Raise {A} e.

(** ** The object *)

Record DelayLine : Type := mkDelayLine {
  N : Z;
  write_ptr : Z;
  read_ptr : list Q;
  delay_line : list Q;
  interpolation : string
}.

(** [np.zeros(n)] *)
Definition np_zeros (n : Z) : list Q := replicate (Z.to_nat n) 0.

(** [DelayLine.__init__] *)
Definition __init__ (N0 num_read_ptrs : Z) (interp : string) : result DelayLine :=
  if (N0 <=? 0)%Z then
    Raise (ValueError "Delay Line size must be greater than zero.")
  else if (num_read_ptrs <=? 0)%Z then
    Raise (ValueError "Number of read pointers must be greater than zero.")
  else if bool_decide (interp ≠ "Linear") && bool_decide (interp ≠ "Lagrange")
          && bool_decide (interp ≠ "Sinc") then
    Raise (ValueError "Interpolation parameter can be: `Linear`, `Lagrange`, or `Sinc`")
  else
    Ok {| N := N0;
          write_ptr := 0;
          read_ptr := np_zeros num_read_ptrs;
          delay_line := np_zeros N0;
          interpolation := interp |}.

Example init_ok : __init__ 10 2 "Sinc" =
  Ok (mkDelayLine 10 0 [0; 0] (replicate 10 0) "Sinc").
Proof. reflexivity. Qed.

(** ** Methods as state transformers that may raise *)

Definition M (A : Type) : Type := DelayLine -> result A * DelayLine.

Definition ret {A} (a : A) : M A := fun self => (Ok a, self).
Definition raise {A} (e : exn) : M A := fun self => (Raise e, self).
Definition bind {A B} (m : M A) (k : A -> M B) : M B :=
  fun self =>
    match m self with
    | (Ok a, self') => k a self'
    | (Raise e, self') => (Raise e, self')
    end.
Definition lift {A} (r : result A) : M A := fun self => (r, self).
Definition get {A} (f : DelayLine -> A) : M A := fun self => (Ok (f self), self).

Declare Scope method_scope.
Delimit Scope method_scope with method.
Bind Scope method_scope with M.
Notation "x <- m ;; k" := (bind m (fun x => k))
  (at level 100, m at next level, k at level 200, right associativity) : method_scope.
Notation "m ;; k" := (bind m (fun _ => k))
  (at level 100, k at level 200, right associativity) : method_scope.
Open Scope method_scope.

(** ** numpy and Python primitives *)

(** [x < y] on floats *)
Definition Qlt_bool (x y : Q) : bool := negb (Qle_bool y x).

(** [range(a, b)] *)
Definition range (a b : Z) : list Z :=
  map (fun i => (a + Z.of_nat i)%Z) (seq 0 (Z.to_nat (b - a))).

(** [range(a, b, 2)] and [np.arange(a, b, 2)] *)
Definition range2 (a b : Z) : list Z :=
  map (fun i => (a + 2 * Z.of_nat i)%Z) (seq 0 (Z.to_nat ((b - a + 1) / 2))).

(** [a[i]] for an integer [i]: a negative index counts from the end. *)
Definition np_getitem {A} (a : list A) (i : Z) : result A :=
  let n := Z.of_nat (length a) in
  let j := if (i <? 0)%Z then (i + n)%Z else i in
  if ((0 <=? j) && (j <? n))%Z then
    match a !! Z.to_nat j with Some x => Ok x | None => Raise IndexError end
  else Raise IndexError.

(** [a[i] = v] *)
Definition np_setitem {A} (a : list A) (i : Z) (v : A) : result (list A) :=
  let n := Z.of_nat (length a) in
  let j := if (i <? 0)%Z then (i + n)%Z else i in
  if ((0 <=? j) && (j <? n))%Z then Ok (<[Z.to_nat j := v]> a)
  else Raise IndexError.

(** [np.mod(a, n)] on integers: the sign of the divisor, and 0 for [n = 0]. *)
Definition np_mod (a n : Z) : Z := if (n =? 0)%Z then 0%Z else (a mod n)%Z.

(** [np.ones(n)] *)
Definition np_ones (n : Z) : list Q := replicate (Z.to_nat n) 1.

(** [a * b] on 1-D arrays, with numpy's broadcasting of a length-1 operand;
    [mul] is the product of the entries. *)
Definition np_mul {A} (mul : A -> A -> A) (a b : list A) : result (list A) :=
  if (length a =? length b)%nat then Ok (zip_with mul a b)
  else match a, b with
       | [x], _ => Ok (map (mul x) b)
       | _, [y] => Ok (map (fun x => mul x y) a)
       | _, _ => Raise (ValueError "operands could not be broadcast together")
       end.

(** Field updates of the object. *)
Definition with_write_ptr (self : DelayLine) (v : Z) : DelayLine :=
  mkDelayLine (N self) v (read_ptr self) (delay_line self) (interpolation self).
Definition with_read_ptr (self : DelayLine) (l : list Q) : DelayLine :=
  mkDelayLine (N self) (write_ptr self) l (delay_line self) (interpolation self).
Definition with_delay_line (self : DelayLine) (l : list Q) : DelayLine :=
  mkDelayLine (N self) (write_ptr self) (read_ptr self) l (interpolation self).

Definition set_write_ptr (v : Z) : M unit := fun self =>
  (Ok tt, with_write_ptr self v).

Definition setitem_read_ptr (i : Z) (v : Q) : M unit := fun self =>
  match np_setitem (read_ptr self) i v with
  | Ok l => (Ok tt, with_read_ptr self l)
  | Raise e => (Raise e, self)
  end.

Definition setitem_delay_line (i : Z) (v : Q) : M unit := fun self =>
  match np_setitem (delay_line self) i v with
  | Ok l => (Ok tt, with_delay_line self l)
  | Raise e => (Raise e, self)
  end.

Definition getitem_read_ptr (i : Z) : M Q := fun self =>
  (np_getitem (read_ptr self) i, self).

(** [for i in l: acc = body(i, acc)], the locals of the loop passed along. *)
Fixpoint for_ {A B} (l : list A) (body : A -> B -> M B) (acc : B) : M B :=
  match l with
  | [] => ret acc
  | i :: l' => acc' <- body i acc ;; for_ l' body acc'
  end.

(** [while cond: body], with a budget of [fuel] evaluations of [cond]. *)
Fixpoint while_ (fuel : nat) (cond : M bool) (body : M unit) : M unit :=
  match fuel with
  | O => raise Timeout
  | S fuel' => c <- cond ;; if (c : bool) then body ;; while_ fuel' cond body else ret tt
  end.

(** ** [DelayLine.set_delays] *)

Definition set_delays_body (delay : list Q) (i : Z) (_ : unit) : M unit :=
  wp <- get write_ptr ;;
  d <- lift (np_getitem delay i) ;;
  setitem_read_ptr i (inject_Z wp - d) ;;
  r <- getitem_read_ptr i ;;
  if Qlt_bool r 0 then
    n <- get N ;;
    r <- getitem_read_ptr i ;;
    setitem_read_ptr i (r + inject_Z n)
  else ret tt.

Definition set_delays (delay : list Q) : M unit :=
  if existsb (fun d => Qle_bool d 0) delay then
    raise (ValueError "Delays must be non-negative numbers")
  else
  len_rp <- get (fun self => length (read_ptr self)) ;;
  if negb (length delay =? len_rp)%nat then
    raise (ValueError "Length of delay array should match number of read pointers")
  else
  n <- get N ;;
  if existsb (fun d => Qle_bool (inject_Z n) d) delay then
    raise (RuntimeError
      "Delay greater than delay line length has been encountered. Considerusing a longer delay line")
  else
  for_ (range 0 (Z.of_nat len_rp)) (set_delays_body delay) tt.

Example set_delays_3 :
  match __init__ 10 1 "Linear" with
  | Ok dl => set_delays [3] dl = (Ok tt, mkDelayLine 10 0 [7] (replicate 10 0) "Linear")
  | Raise _ => False
  end.
Proof. reflexivity. Qed.

(** ** Reads of the buffer, with the subscripts they evaluate

    [_interpolated_read] only reads [self.delay_line].  A read is modelled
    as its outcome together with the list of subscripts it has evaluated on
    the buffer, in order, up to the point where it returned or raised. *)

Definition Traced (A : Type) : Type := result A * list Z.

Definition tret {A} (a : A) : Traced A := (Ok a, []).
Definition traise {A} (e : exn) : Traced A := (Raise e, []).
Definition tlift {A} (r : result A) : Traced A := (r, []).
Definition tbind {A B} (m : Traced A) (k : A -> Traced B) : Traced B :=
  match m with
  | (Ok a, t) => let (r, t') := k a in (r, t ++ t')
  | (Raise e, t) => (Raise e, t)
  end.

Declare Scope traced_scope.
Delimit Scope traced_scope with traced.
Bind Scope traced_scope with Traced.
Notation "x <- m ;; k" := (tbind m (fun x => k))
  (at level 100, m at next level, k at level 200, right associativity) : traced_scope.

(** [self.delay_line[i]] *)
Definition load (self : DelayLine) (i : Z) : Traced Q :=
  (np_getitem (delay_line self) i, [i]).

(** The convolution loop shared by the Lagrange and Sinc branches:
    [for i in idx: out = out + h[i] * self.delay_line[np.mod(k + i - off, self.N)]] *)
Fixpoint fir_loop (self : DelayLine) (h : list Q) (k off : Z) (idx : list Z) (out : Q)
  : Traced Q :=
  match idx with
  | [] => tret out
  | i :: idx' =>
      (c <- tlift (np_getitem h i) ;;
       x <- load self (np_mod (k + i - off) (N self)) ;;
       fir_loop self h k off idx' (out + c * x))%traced
  end.

(** ** [DelayLine._frac_delay_lagrange]

    The fancy-indexed assignment [h[index] = h[index] * (delay - k) / (n[index] - k)]
    first evaluates its right-hand side on the old [h], then stores the
    values at the positions of [index].  Every [j] of [index] is below
    [order + 1], the length of [h] and [n], so the lookups have a value. *)

Definition fancy_get {A} (dflt : A) (a : list A) (index : list Z) : list A :=
  map (fun j => default dflt (a !! Z.to_nat j)) index.

Definition fancy_set {A} (a : list A) (index : list Z) (vals : list A) : list A :=
  foldl (fun acc jv => <[Z.to_nat (fst jv) := snd jv]> acc) a (zip index vals).

Definition _frac_delay_lagrange (order : Z) (delay : Q) : list Q :=
  let n := range 0 (order + 1) in
  let h := np_ones (order + 1) in
  foldl (fun h k =>
           let index := filter (fun j => j ≠ k) (range 0 (order + 1)) in
           fancy_set h index
             (zip_with (fun hj nj => hj * (delay - inject_Z k) / inject_Z (nj - k))
                       (fancy_get 0 h index) (fancy_get 0%Z n index)))
        h (range 0 (order + 1)).

Section Interpolation.

(** numpy's [pi], [sin] and [cos], which have no rational model. *)
Variable np_pi : Q.
Variables np_sin np_cos : Q -> Q.

(** [np.sinc(x)]: [y = pi * where(x == 0, 1.0e-20, x); sin(y) / y] *)
Definition np_sinc (x : Q) : Q :=
  let y := np_pi * (if Qeq_bool x 0 then 1 / inject_Z (10 ^ 20) else x) in
  np_sin y / y.

(** [np.hanning(M)] *)
Definition np_hanning (m : Z) : list Q :=
  if (m <? 1)%Z then []
  else if (m =? 1)%Z then [1]
  else map (fun n => 0.5 + 0.5 * np_cos (np_pi * inject_Z n / inject_Z (m - 1)))
           (range2 (1 - m) m).

(** ** [DelayLine._frac_delay_sinc] *)
Definition _frac_delay_sinc (sinc_samples : Z) (sinc_window : list Q) (delay : Q)
  : result (list Q) :=
  np_mul Qmult sinc_window
    (map (fun n => np_sinc (inject_Z n - inject_Z (sinc_samples - 1) / 2 - delay))
         (range 0 sinc_samples)).

(** ** [DelayLine._interpolated_read] *)
Definition _interpolated_read (self : DelayLine) (read_ptr_integer : Z) (d : Q)
  (method : string) : Traced Q :=
  if bool_decide (method = "Lagrange") then
    let order := 5%Z in
    let h_lagrange := _frac_delay_lagrange order d in
    fir_loop self h_lagrange read_ptr_integer (Qfloor (inject_Z order / 2))
             (range 0 (Z.of_nat (length h_lagrange))) 0
  else if bool_decide (method = "Linear") then
    (b1 <- load self (np_mod (read_ptr_integer + 1) (N self)) ;;
     b0 <- load self read_ptr_integer ;;
     tret (d * b1 + (1 - d) * b0))%traced
  else if bool_decide (method = "Sinc") then
    let sinc_samples := 11%Z in
    let sinc_window := np_hanning sinc_samples in
    (h_sinc <- tlift (_frac_delay_sinc sinc_samples sinc_window d) ;;
     fir_loop self h_sinc read_ptr_integer (Qfloor (inject_Z sinc_samples / 2))
              (range 0 sinc_samples) 0)%traced
  else
    traise (ValueError "Interpolation parameter can be: `Linear`, `Lagrange`, or `Sinc`").

(** A call of [self._interpolated_read] from another method. *)
Definition call_interpolated_read (rpi : Z) (d : Q) (method : string) : M Q :=
  fun self => (fst (_interpolated_read self rpi d method), self).

(** ** [DelayLine.update_delay_line] *)

(** [while (self.read_ptr[i] < 0): self.read_ptr[i] += self.N] *)
Definition wrap_read_up (fuel : nat) (i : Z) : M unit :=
  while_ fuel (r <- getitem_read_ptr i ;; ret (Qlt_bool r 0))
              (r <- getitem_read_ptr i ;; n <- get N ;;
               setitem_read_ptr i (r + inject_Z n)).

(** [while (self.write_ptr >= self.N): self.write_ptr -= self.N] *)
Definition wrap_write (fuel : nat) : M unit :=
  while_ fuel (wp <- get write_ptr ;; n <- get N ;; ret (wp >=? n)%Z)
              (wp <- get write_ptr ;; n <- get N ;; set_write_ptr (wp - n)).

(** [while (self.read_ptr[i] >= self.N): self.read_ptr[i] -= self.N] *)
Definition wrap_read_down (fuel : nat) (i : Z) : M unit :=
  while_ fuel (r <- getitem_read_ptr i ;; n <- get N ;; ret (Qle_bool (inject_Z n) r))
              (r <- getitem_read_ptr i ;; n <- get N ;;
               setitem_read_ptr i (r - inject_Z n)).

(** The body of [for i in range(len(self.read_ptr))], with the local [y]. *)
Definition update_delay_line_body (fuel : nat) (delay : list Q) (i : Z) (y : list Q)
  : M (list Q) :=
  r <- getitem_read_ptr i ;;
  let rpi := Qfloor r in
  let frac_del := r - inject_Z rpi in
  interp <- get interpolation ;;
  out <- call_interpolated_read rpi frac_del interp ;;
  y <- lift (np_setitem y i out) ;;
  wp <- get write_ptr ;;
  d <- lift (np_getitem delay i) ;;
  setitem_read_ptr i (inject_Z wp - d) ;;
  wrap_read_up fuel i ;;
  wrap_write fuel ;;
  wrap_read_down fuel i ;;
  ret y.

Definition update_delay_line (fuel : nat) (x : Q) (delay : list Q) : M (list Q) :=
  y <- get (fun self => replicate (length (read_ptr self)) (0 : Q)) ;;
  wp <- get write_ptr ;;
  setitem_delay_line wp x ;;
  set_write_ptr (wp + 1) ;;
  len_rp <- get (fun self => length (read_ptr self)) ;;
  for_ (range 0 (Z.of_nat len_rp)) (update_delay_line_body fuel delay) y.

End Interpolation.

(** The loop that drives the delay line: one [update_delay_line] call per
    sample, in order, stopping at the first call that raises. *)
Fixpoint run (np_pi : Q) (np_sin np_cos : Q -> Q) (fuel : nat)
  (inputs : list (Q * list Q)) : M (list (list Q)) :=
  match inputs with
  | [] => ret []
  | (x, delay) :: rest =>
      y <- update_delay_line np_pi np_sin np_cos fuel x delay ;;
      ys <- run np_pi np_sin np_cos fuel rest ;;
      ret (y :: ys)
  end.

(** ** The data model's invariants *)

Definition valid_mode (s : string) : Prop :=
  s = "Linear" \/ s = "Lagrange" \/ s = "Sinc".

(** A float position lies in [[0, n)]. *)
Definition in_range (n : Z) (r : Q) : Prop := 0 <= r /\ r < inject_Z n.

Record wf (dl : DelayLine) : Prop := mk_wf {
  wf_N : (0 < N dl)%Z;
  wf_write_ptr : (0 <= write_ptr dl < N dl)%Z;
  wf_read_ptr : Forall (in_range (N dl)) (read_ptr dl);
  wf_readers : (0 < length (read_ptr dl))%nat;
  wf_delay_line : length (delay_line dl) = Z.to_nat (N dl);
  wf_mode : valid_mode (interpolation dl)
}.

(** * Construction *)

Lemma valid_mode_check interp :
  bool_decide (interp ≠ "Linear") && bool_decide (interp ≠ "Lagrange")
    && bool_decide (interp ≠ "Sinc") = false <-> valid_mode interp.
Proof.
  unfold valid_mode. rewrite !andb_false_iff, !bool_decide_eq_false.
  split.
  - intros [[H | H] | H]; apply dec_stable in H; auto.
  - intros [H | [H | H]]; auto.
Qed.

Lemma init_success N0 M0 interp :
  (0 < N0)%Z -> (0 < M0)%Z -> valid_mode interp ->
  __init__ N0 M0 interp =
    Ok (mkDelayLine N0 0 (replicate (Z.to_nat M0) 0) (replicate (Z.to_nat N0) 0) interp).
Proof.
  intros HN HM Hmode. unfold __init__.
  destruct (Z.leb_spec N0 0); [lia |].
  destruct (Z.leb_spec M0 0); [lia |].
  apply valid_mode_check in Hmode. rewrite Hmode. reflexivity.
Qed.

Lemma init_inv N0 M0 interp dl :
  __init__ N0 M0 interp = Ok dl ->
  (0 < N0)%Z /\ (0 < M0)%Z /\ valid_mode interp /\
  dl = mkDelayLine N0 0 (replicate (Z.to_nat M0) 0) (replicate (Z.to_nat N0) 0) interp.
Proof.
  unfold __init__.
  destruct (Z.leb_spec N0 0); [discriminate |].
  destruct (Z.leb_spec M0 0); [discriminate |].
  destruct (_ && _) eqn:Hmode; [discriminate |].
  apply valid_mode_check in Hmode. intros [= <-]. auto.
Qed.

Lemma init_wf N0 M0 interp dl : __init__ N0 M0 interp = Ok dl -> wf dl.
Proof.
  intros (HN & HM & Hmode & ->)%init_inv. split; simpl; auto.
  - lia.
  - apply Forall_replicate. split; [apply Qle_refl |].
    change 0 with (inject_Z 0). rewrite <- Zlt_Qlt. exact HN.
  - rewrite length_replicate. lia.
  - apply length_replicate.
Qed.

(** C6.  [create(N, M, interpolationMode)] fails with [ValueError] (the
    spec's InvalidArgument) when [N <= 0], when [M <= 0], or when the mode is
    not one of [Linear], [Lagrange], [Sinc]; otherwise it succeeds with a
    zero-filled buffer of [N] samples, write pointer 0 and [M] read pointers
    all at position 0.0. *)
Theorem init_validation (N0 M0 : Z) (interp : string) :
  ((N0 <= 0)%Z -> exists msg, __init__ N0 M0 interp = Raise (ValueError msg)) /\
  ((M0 <= 0)%Z -> exists msg, __init__ N0 M0 interp = Raise (ValueError msg)) /\
  (~ valid_mode interp -> exists msg, __init__ N0 M0 interp = Raise (ValueError msg)) /\
  ((0 < N0)%Z -> (0 < M0)%Z -> valid_mode interp ->
     exists dl, __init__ N0 M0 interp = Ok dl /\
       N dl = N0 /\ interpolation dl = interp /\
       write_ptr dl = 0%Z /\
       delay_line dl = replicate (Z.to_nat N0) 0 /\
       read_ptr dl = replicate (Z.to_nat M0) 0).
Proof.
  repeat split.
  - intros HN. unfold __init__. destruct (Z.leb_spec N0 0); [eauto | lia].
  - intros HM. unfold __init__.
    destruct (Z.leb_spec N0 0); [eauto |].
    destruct (Z.leb_spec M0 0); [eauto | lia].
  - intros Hmode. unfold __init__.
    destruct (Z.leb_spec N0 0); [eauto |].
    destruct (Z.leb_spec M0 0); [eauto |].
    destruct (_ && _) eqn:E; [eauto |].
    apply valid_mode_check in E. contradiction.
  - intros HN HM Hmode. eexists. split; [apply init_success; assumption |].
    simpl. auto.
Qed.

(** The spec's construction examples: sizes 0 and a bogus mode are
    refused, [create(10, 2, Sinc)] gives 10 zeros, write pointer 0 and two
    read pointers at 0.0. *)
Lemma init_validation_witness :
  (exists msg, __init__ 0 1 "Linear" = Raise (ValueError msg)) /\
  (exists msg, __init__ 10 0 "Linear" = Raise (ValueError msg)) /\
  (exists msg, __init__ 10 1 "Bogus" = Raise (ValueError msg)) /\
  (exists dl, __init__ 10 2 "Sinc" = Ok dl /\
     N dl = 10%Z /\ interpolation dl = "Sinc" /\ write_ptr dl = 0%Z /\
     delay_line dl = replicate 10 0 /\ read_ptr dl = [0; 0]).
Proof.
  split; [| split; [| split]].
  - destruct (init_validation 0 1 "Linear") as (H & _). apply H. lia.
  - destruct (init_validation 10 0 "Linear") as (_ & H & _). apply H. lia.
  - destruct (init_validation 10 1 "Bogus") as (_ & _ & H & _). apply H.
    unfold valid_mode. intros [E | [E | E]]; discriminate E.
  - destruct (init_validation 10 2 "Sinc") as (_ & _ & _ & H).
    apply H; [lia | lia |]. unfold valid_mode. auto.
Defined.

(** * Stepping through a method *)

Lemma bind_ok {A B} (m : M A) (k : A -> M B) self a self' :
  m self = (Ok a, self') -> bind m k self = k a self'.
Proof. unfold bind. intros ->. reflexivity. Qed.

Lemma bind_raise {A B} (m : M A) (k : A -> M B) self e self' :
  m self = (Raise e, self') -> bind m k self = (Raise e, self').
Proof. unfold bind. intros ->. reflexivity. Qed.

Lemma bind_get {A B} (f : DelayLine -> A) (k : A -> M B) self :
  bind (get f) k self = k (f self) self.
Proof. reflexivity. Qed.

Lemma bind_lift_ok {A B} (r : result A) (k : A -> M B) self a :
  r = Ok a -> bind (lift r) k self = k a self.
Proof. intros ->. reflexivity. Qed.

Lemma Qlt_bool_iff x y : Qlt_bool x y = true <-> x < y.
Proof.
  unfold Qlt_bool. rewrite negb_true_iff, <- not_true_iff_false, Qle_bool_iff.
  split; [apply Qnot_le_lt | apply Qlt_not_le].
Qed.

Lemma Qlt_bool_false x y : Qlt_bool x y = false <-> y <= x.
Proof.
  unfold Qlt_bool. rewrite negb_false_iff. apply Qle_bool_iff.
Qed.

Lemma Qle_bool_false x y : Qle_bool x y = false <-> y < x.
Proof.
  rewrite <- not_true_iff_false, Qle_bool_iff.
  split; [apply Qnot_le_lt | apply Qlt_not_le].
Qed.

Lemma range_0_nat n : range 0 (Z.of_nat n) = map Z.of_nat (seq 0 n).
Proof. unfold range. rewrite Z.sub_0_r, Nat2Z.id. reflexivity. Qed.

Lemma np_getitem_nat {A} (a : list A) (i : nat) x :
  a !! i = Some x -> np_getitem a (Z.of_nat i) = Ok x.
Proof.
  intros H. pose proof (lookup_lt_Some _ _ _ H) as Hlt.
  unfold np_getitem.
  destruct (Z.ltb_spec (Z.of_nat i) 0); [lia |].
  destruct (Z.leb_spec 0 (Z.of_nat i)); [| lia].
  destruct (Z.ltb_spec (Z.of_nat i) (Z.of_nat (length a))); [| lia].
  simpl. rewrite Nat2Z.id, H. reflexivity.
Qed.

Lemma np_setitem_nat {A} (a : list A) (i : nat) v :
  (i < length a)%nat -> np_setitem a (Z.of_nat i) v = Ok (<[i := v]> a).
Proof.
  intros Hlt. unfold np_setitem.
  destruct (Z.ltb_spec (Z.of_nat i) 0); [lia |].
  destruct (Z.leb_spec 0 (Z.of_nat i)); [| lia].
  destruct (Z.ltb_spec (Z.of_nat i) (Z.of_nat (length a))); [| lia].
  simpl. rewrite Nat2Z.id. reflexivity.
Qed.

Lemma getitem_read_ptr_nat self i r :
  read_ptr self !! i = Some r -> getitem_read_ptr (Z.of_nat i) self = (Ok r, self).
Proof. intros H. unfold getitem_read_ptr. rewrite (np_getitem_nat _ _ _ H). reflexivity. Qed.

Lemma setitem_read_ptr_nat self i v :
  (i < length (read_ptr self))%nat ->
  setitem_read_ptr (Z.of_nat i) v self = (Ok tt, with_read_ptr self (<[i := v]> (read_ptr self))).
Proof. intros H. unfold setitem_read_ptr. rewrite (np_setitem_nat _ _ _ H). reflexivity. Qed.

(** Storing [g j] at every position [j] of [seq i n]. *)
Lemma foldl_insert_lookup {A} (g : nat -> A) n : forall i (l : list A),
  (i + n <= length l)%nat ->
  let l' := foldl (fun acc j => <[j := g j]> acc) l (seq i n) in
  length l' = length l /\
  forall j, l' !! j = if bool_decide (i <= j < i + n)%nat then Some (g j) else l !! j.
Proof.
  induction n as [| n IH]; intros i l Hlen; simpl.
  - split; [reflexivity |]. intros j. rewrite bool_decide_eq_false_2; [reflexivity | lia].
  - destruct (IH (S i) (<[i := g i]> l)) as [Hl Hj].
    { rewrite length_insert. lia. }
    split; [rewrite Hl; apply length_insert |].
    intros j. rewrite Hj.
    destruct (decide (j = i)) as [-> | Hne].
    + rewrite bool_decide_eq_false_2 by lia.
      rewrite bool_decide_eq_true_2 by lia.
      apply list_lookup_insert_eq. lia.
    + rewrite list_lookup_insert_ne by congruence.
      destruct (decide (S i <= j < S i + n)%nat).
      * rewrite !bool_decide_eq_true_2 by lia. reflexivity.
      * rewrite !bool_decide_eq_false_2 by lia. reflexivity.
Qed.

(** * [set_delays] *)

(** [write_ptr - d], with [n] added once if that is negative. *)
Definition wrap_once (wp n : Z) (d : Q) : Q :=
  let r := inject_Z wp - d in
  if Qlt_bool r 0 then r + inject_Z n else r.

Lemma set_delays_body_ok delay self (i : nat) d :
  (i < length (read_ptr self))%nat -> delay !! i = Some d ->
  set_delays_body delay (Z.of_nat i) tt self =
    (Ok tt, with_read_ptr self
              (<[i := wrap_once (write_ptr self) (N self) d]> (read_ptr self))).
Proof.
  intros Hi Hd. unfold set_delays_body.
  rewrite bind_get.
  rewrite (bind_lift_ok _ _ _ _ (np_getitem_nat _ _ _ Hd)).
  rewrite (bind_ok _ _ _ _ _ (setitem_read_ptr_nat _ _ _ Hi)).
  set (s1 := with_read_ptr self _).
  assert (H1 : read_ptr s1 !! i = Some (inject_Z (write_ptr self) - d)).
  { apply list_lookup_insert_eq. exact Hi. }
  rewrite (bind_ok _ _ _ _ _ (getitem_read_ptr_nat _ _ _ H1)).
  unfold wrap_once. cbv zeta.
  destruct (Qlt_bool _ 0).
  - rewrite bind_get.
    rewrite (bind_ok _ _ _ _ _ (getitem_read_ptr_nat _ _ _ H1)).
    rewrite setitem_read_ptr_nat by (simpl; rewrite length_insert; exact Hi).
    unfold s1, with_read_ptr. simpl. rewrite list_insert_insert_eq. reflexivity.
  - reflexivity.
Qed.

Lemma set_delays_loop delay n : forall (i : nat) self,
  (i + n <= length (read_ptr self))%nat -> length delay = length (read_ptr self) ->
  for_ (map Z.of_nat (seq i n)) (set_delays_body delay) tt self =
    (Ok tt, with_read_ptr self
       (foldl (fun acc j =>
                 <[j := wrap_once (write_ptr self) (N self) (default 0 (delay !! j))]> acc)
              (read_ptr self) (seq i n))).
Proof.
  induction n as [| n IH]; intros i self Hi Hlen; simpl.
  - destruct self; reflexivity.
  - destruct (lookup_lt_is_Some_2 delay i) as [d Hd]; [lia |].
    rewrite (bind_ok _ _ _ _ _ (set_delays_body_ok delay self i d ltac:(lia) Hd)).
    rewrite IH; simpl; rewrite ?length_insert; try lia.
    rewrite Hd. reflexivity.
Qed.

Lemma existsb_Exists_Q (p : Q -> bool) (P : Q -> Prop) (l : list Q) :
  (forall x, p x = true <-> P x) -> existsb p l = true <-> Exists P l.
Proof.
  intros Hp. rewrite existsb_exists, Exists_exists.
  split; intros (x & Hx & Hpx); exists x; rewrite list_elem_of_In in *;
    (split; [assumption | apply Hp; assumption]).
Qed.

Lemma existsb_false_Forall_Q (p : Q -> bool) (P : Q -> Prop) (l : list Q) :
  (forall x, p x = false <-> P x) -> existsb p l = false <-> Forall P l.
Proof.
  intros Hp. induction l as [| x l IH]; simpl.
  - split; auto.
  - rewrite orb_false_iff, Forall_cons, IH, Hp. reflexivity.
Qed.

(** What is checked before any store, and what is raised. *)
Lemma set_delays_raises delay self e self' :
  set_delays delay self = (Raise e, self') -> self' = self.
Proof.
  unfold set_delays.
  destruct (existsb _ delay); [intros [= _ <-]; reflexivity |].
  rewrite bind_get.
  destruct (Nat.eqb_spec (length delay) (length (read_ptr self))) as [Hlen | Hlen]; simpl;
    [| intros [= _ <-]; reflexivity].
  rewrite bind_get.
  destruct (existsb _ delay); [intros [= _ <-]; reflexivity |].
  rewrite range_0_nat, set_delays_loop by lia. discriminate.
Qed.

Lemma set_delays_success delay self :
  Forall (fun d => 0 < d /\ d < inject_Z (N self)) delay ->
  length delay = length (read_ptr self) ->
  set_delays delay self =
    (Ok tt, with_read_ptr self (map (wrap_once (write_ptr self) (N self)) delay)).
Proof.
  intros Hd Hlen. unfold set_delays.
  assert (H1 : existsb (fun d => Qle_bool d 0) delay = false).
  { apply (existsb_false_Forall_Q _ (fun d => 0 < d)).
    - intros x. apply Qle_bool_false.
    - eapply Forall_impl; [exact Hd |]. simpl. tauto. }
  rewrite H1, bind_get, Hlen, Nat.eqb_refl. simpl. rewrite bind_get.
  assert (H2 : existsb (fun d => Qle_bool (inject_Z (N self)) d) delay = false).
  { apply (existsb_false_Forall_Q _ (fun d => d < inject_Z (N self))).
    - intros x. apply Qle_bool_false.
    - eapply Forall_impl; [exact Hd |]. simpl. tauto. }
  rewrite H2, range_0_nat, set_delays_loop by lia.
  f_equal. f_equal.
  destruct (foldl_insert_lookup
              (fun j => wrap_once (write_ptr self) (N self) (default 0 (delay !! j)))
              (length (read_ptr self)) 0%nat (read_ptr self) ltac:(lia)) as [Hl Hj].
  apply list_eq. intros j. rewrite Hj, list_lookup_fmap.
  destruct (decide (j < length delay)%nat) as [Hlt | Hge].
  - rewrite bool_decide_eq_true_2 by lia.
    destruct (lookup_lt_is_Some_2 delay j Hlt) as [d ->]. reflexivity.
  - rewrite bool_decide_eq_false_2 by lia.
    rewrite (lookup_ge_None_2 delay) by lia.
    rewrite lookup_ge_None_2 by lia. reflexivity.
Qed.

Lemma wrap_once_in_range wp n d :
  (0 <= wp < n)%Z -> 0 < d -> d < inject_Z n -> in_range n (wrap_once wp n d).
Proof.
  intros [Hwp0 Hwpn] Hd0 Hdn. unfold wrap_once, in_range. cbv zeta.
  rewrite Zle_Qle in Hwp0. rewrite Zlt_Qlt in Hwpn.
  change (inject_Z 0) with 0 in Hwp0.
  destruct (Qlt_bool _ 0) eqn:E.
  - apply Qlt_bool_iff in E. lra.
  - apply Qlt_bool_false in E. lra.
Qed.

(** [set_delays] in exact arithmetic: it fails with [ValueError] if some
    [delays[i] <= 0] or if the length differs from the number of read
    pointers, and with [RuntimeError] if some [delays[i] >= N], the three
    checks made in this order; every failure leaves the object as it was; on
    success every [readPointer[i]] is [writePointer - delays[i]] with [N]
    added once if that is negative.  In exact arithmetic that value lies in
    [[0, N)]; in binary64 the sum can round to [N] (see [Float64]). *)
Lemma set_delays_validation (self : DelayLine) (delay : list Q) :
  (Exists (fun d => d <= 0) delay \/ length delay ≠ length (read_ptr self) ->
     exists msg, set_delays delay self = (Raise (ValueError msg), self)) /\
  (Forall (fun d => 0 < d) delay -> length delay = length (read_ptr self) ->
   Exists (fun d => inject_Z (N self) <= d) delay ->
     exists msg, set_delays delay self = (Raise (RuntimeError msg), self)) /\
  (forall e self', set_delays delay self = (Raise e, self') -> self' = self) /\
  (Forall (fun d => 0 < d /\ d < inject_Z (N self)) delay ->
   length delay = length (read_ptr self) ->
   (0 <= write_ptr self < N self)%Z ->
     set_delays delay self =
       (Ok tt, with_read_ptr self (map (wrap_once (write_ptr self) (N self)) delay)) /\
     Forall (in_range (N self)) (map (wrap_once (write_ptr self) (N self)) delay)).
Proof.
  split; [| split; [| split]].
  - intros H. unfold set_delays.
    destruct (existsb _ delay) eqn:E1; [eauto |].
    rewrite bind_get.
    destruct (Nat.eqb_spec (length delay) (length (read_ptr self))) as [Hlen | Hlen];
      simpl; [| eauto].
    destruct H as [H | H]; [| contradiction].
    apply (existsb_Exists_Q (fun d => Qle_bool d 0) (fun d => d <= 0)) in H;
      [congruence | intros x; apply Qle_bool_iff].
  - intros Hpos Hlen Hbig. unfold set_delays.
    assert (H1 : existsb (fun d => Qle_bool d 0) delay = false).
    { apply (existsb_false_Forall_Q _ (fun d => 0 < d)); [| exact Hpos].
      intros x. apply Qle_bool_false. }
    rewrite H1, bind_get, Hlen, Nat.eqb_refl. simpl. rewrite bind_get.
    apply (existsb_Exists_Q (fun d => Qle_bool (inject_Z (N self)) d)) in Hbig;
      [| intros x; apply Qle_bool_iff].
    rewrite Hbig. eauto.
  - intros e self'. apply set_delays_raises.
  - intros Hd Hlen Hwp. split; [apply set_delays_success; assumption |].
    apply Forall_fmap. eapply Forall_impl; [exact Hd |].
    intros d [Hd0 Hdn]. apply wrap_once_in_range; assumption.
Qed.

(** The spec's examples on a delay line of capacity 10 with one reader:
    [[-1]] and [[0]] are refused as invalid, [[10]] as out of range, and
    [[3]] puts the read pointer at 7. *)
Lemma set_delays_validation_witness :
  let dl := mkDelayLine 10 0 [0] (replicate 10 0) "Linear" in
  (exists msg, set_delays [-1] dl = (Raise (ValueError msg), dl)) /\
  (exists msg, set_delays [0] dl = (Raise (ValueError msg), dl)) /\
  (exists msg, set_delays [10] dl = (Raise (RuntimeError msg), dl)) /\
  (set_delays [3] dl = (Ok tt, with_read_ptr dl [7]) /\ Forall (in_range 10) [7]).
Proof.
  intros dl. split; [| split; [| split]].
  - destruct (set_delays_validation dl [-1]) as (H & _). apply H.
    left. apply Exists_cons_hd. unfold Qle. simpl. lia.
  - destruct (set_delays_validation dl [0]) as (H & _). apply H.
    left. apply Exists_cons_hd. unfold Qle. simpl. lia.
  - destruct (set_delays_validation dl [10]) as (_ & H & _). apply H.
    + repeat constructor.
    + reflexivity.
    + apply Exists_cons_hd. unfold Qle. simpl. lia.
  - destruct (set_delays_validation dl [3]) as (_ & _ & _ & H). apply H.
    + repeat constructor; unfold Qlt; simpl; lia.
    + reflexivity.
    + simpl. lia.
Defined.

(** * Interpolated reads *)

Lemma np_mod_range a n : (0 < n)%Z -> (0 <= np_mod a n < n)%Z.
Proof.
  intros Hn. unfold np_mod. destruct (Z.eqb_spec n 0); [lia |].
  apply Z.mod_pos_bound. exact Hn.
Qed.

Lemma np_mod_pos a n : (0 < n)%Z -> np_mod a n = (a mod n)%Z.
Proof. intros Hn. unfold np_mod. destruct (Z.eqb_spec n 0); [lia | reflexivity]. Qed.

Lemma np_getitem_Z {A} (a : list A) (i : Z) :
  (0 <= i < Z.of_nat (length a))%Z ->
  exists x, a !! Z.to_nat i = Some x /\ np_getitem a i = Ok x.
Proof.
  intros Hi. destruct (lookup_lt_is_Some_2 a (Z.to_nat i)) as [x Hx]; [lia |].
  exists x. split; [exact Hx |].
  rewrite <- (Z2Nat.id i) by lia. apply np_getitem_nat. exact Hx.
Qed.

(** A read of an in-range subscript returns the stored sample. *)
Lemma load_ok self i :
  length (delay_line self) = Z.to_nat (N self) -> (0 <= i < N self)%Z ->
  load self i = (Ok (default 0 (delay_line self !! Z.to_nat i)), [i]).
Proof.
  intros Hlen Hi. unfold load.
  destruct (np_getitem_Z (delay_line self) i) as (x & Hx & ->); [lia |].
  rewrite Hx. reflexivity.
Qed.

(** The value and the subscripts of the convolution loop. *)
Definition fir_value (self : DelayLine) (h : list Q) (k off : Z) (idx : list Z) (out : Q) : Q :=
  foldl (fun acc i =>
           acc + default 0 (h !! Z.to_nat i)
                 * default 0 (delay_line self !! Z.to_nat (np_mod (k + i - off) (N self))))
        out idx.

Lemma fir_loop_ok self h k off :
  (0 < N self)%Z -> length (delay_line self) = Z.to_nat (N self) ->
  forall idx out,
    Forall (fun i => (0 <= i < Z.of_nat (length h))%Z) idx ->
    fir_loop self h k off idx out =
      (Ok (fir_value self h k off idx out),
       map (fun i => np_mod (k + i - off) (N self)) idx).
Proof.
  intros HN Hlen. induction idx as [| i idx IH]; intros out Hidx.
  - reflexivity.
  - apply Forall_cons in Hidx as [Hi Hidx].
    destruct (np_getitem_Z h i Hi) as (c & Hc & Hget).
    cbn [fir_loop]. unfold tbind, tlift. rewrite Hget.
    rewrite (load_ok self _ Hlen (np_mod_range _ _ HN)).
    rewrite (IH _ Hidx). unfold fir_value. cbn [foldl map app]. rewrite Hc.
    reflexivity.
Qed.

Lemma range_bounds a b : Forall (fun i => (a <= i < b)%Z) (range a b).
Proof.
  unfold range. apply Forall_fmap, Forall_forall. intros i Hi.
  apply list_elem_of_In, in_seq in Hi. simpl. lia.
Qed.

Lemma length_range a b : length (range a b) = Z.to_nat (b - a).
Proof. unfold range. rewrite length_map, length_seq. reflexivity. Qed.

Lemma length_frac_delay_lagrange_5 d : length (_frac_delay_lagrange 5 d) = 6%nat.
Proof. reflexivity. Qed.

Section Reads.

Variable np_pi : Q.
Variables np_sin np_cos : Q -> Q.

Local Abbreviation frac_delay_sinc := (_frac_delay_sinc np_pi np_sin).
Local Abbreviation hanning := (np_hanning np_pi np_cos).
Local Abbreviation interpolated_read := (_interpolated_read np_pi np_sin np_cos).

Lemma frac_delay_sinc_11 d :
  exists h, frac_delay_sinc 11 (hanning 11) d = Ok h /\ length h = 11%nat.
Proof.
  unfold _frac_delay_sinc, np_mul.
  eexists. split; reflexivity.
Qed.

(** The subscripts each branch evaluates on the buffer. *)
Definition taps (n : Z) (k : Z) (method : string) : list Z :=
  if bool_decide (method = "Lagrange") then
    map (fun i => np_mod (k + i - 2) n) (range 0 6)
  else if bool_decide (method = "Linear") then
    [np_mod (k + 1) n; k]
  else
    map (fun i => np_mod (k + i - 5) n) (range 0 11).

Lemma taps_in_range n k method :
  (0 < n)%Z -> (0 <= k < n)%Z -> Forall (fun i => (0 <= i < n)%Z) (taps n k method).
Proof.
  intros Hn Hk. unfold taps.
  destruct (bool_decide (method = "Lagrange")).
  { apply Forall_fmap, Forall_forall. intros i _. apply np_mod_range, Hn. }
  destruct (bool_decide (method = "Linear")).
  { repeat constructor; try lia; apply np_mod_range, Hn. }
  apply Forall_fmap, Forall_forall. intros i _. apply np_mod_range, Hn.
Qed.

Lemma interpolated_read_ok self k d method :
  (0 < N self)%Z -> length (delay_line self) = Z.to_nat (N self) ->
  valid_mode method -> (0 <= k < N self)%Z ->
  exists out, interpolated_read self k d method = (Ok out, taps (N self) k method).
Proof.
  intros HN Hlen Hmode Hk. unfold _interpolated_read, taps.
  destruct Hmode as [-> | [-> | ->]].
  - rewrite (bool_decide_eq_false_2 ("Linear" = "Lagrange")) by discriminate.
    rewrite (bool_decide_eq_true_2 ("Linear" = "Linear")) by reflexivity.
    unfold tbind, tret.
    rewrite (load_ok self _ Hlen (np_mod_range _ _ HN)), (load_ok self _ Hlen Hk).
    eexists. reflexivity.
  - rewrite (bool_decide_eq_true_2 ("Lagrange" = "Lagrange")) by reflexivity.
    cbv zeta. rewrite fir_loop_ok; [eexists; reflexivity | assumption | assumption |].
    apply range_bounds.
  - rewrite (bool_decide_eq_false_2 ("Sinc" = "Lagrange")) by discriminate.
    rewrite (bool_decide_eq_false_2 ("Sinc" = "Linear")) by discriminate.
    rewrite (bool_decide_eq_true_2 ("Sinc" = "Sinc")) by reflexivity.
    cbv zeta. destruct (frac_delay_sinc_11 d) as (h & -> & Hh).
    unfold tbind, tlift. rewrite fir_loop_ok; try assumption.
    + eexists. reflexivity.
    + rewrite Hh. apply (range_bounds 0 11).
Qed.

(** C9.  On a delay line that was constructed successfully, whatever its
    pointers and buffer contents have become, an interpolated read with
    integer part [k] in [[0, N)] and any fractional part [d] returns a value
    (it raises nothing, so the branch for an unrecognized mode is not taken),
    and the subscripts it evaluates on the buffer all lie in [[0, N)]:
    [(k + i - 2) mod N] for the six Lagrange taps, [(k + i - 5) mod N] for
    the eleven Sinc taps, and [(k + 1) mod N] then [k] for Linear. *)
Theorem interpolated_read_in_bounds (N0 M0 : Z) (interp : string) (dl0 : DelayLine)
    (wp : Z) (rp buf : list Q) (k : Z) (d : Q) :
  __init__ N0 M0 interp = Ok dl0 ->
  length buf = Z.to_nat N0 ->
  (0 <= k < N0)%Z ->
  exists out trace,
    interpolated_read (mkDelayLine N0 wp rp buf interp) k d interp = (Ok out, trace) /\
    Forall (fun i => (0 <= i < N0)%Z) trace /\
    (interp = "Lagrange" -> trace = map (fun i => ((k + i - 2) mod N0)%Z) [0; 1; 2; 3; 4; 5]%Z) /\
    (interp = "Sinc" ->
       trace = map (fun i => ((k + i - 5) mod N0)%Z) [0; 1; 2; 3; 4; 5; 6; 7; 8; 9; 10]%Z) /\
    (interp = "Linear" -> trace = [((k + 1) mod N0)%Z; k]).
Proof.
  intros (HN & _ & Hmode & _)%init_inv Hlen Hk.
  destruct (interpolated_read_ok (mkDelayLine N0 wp rp buf interp) k d interp)
    as [out Hout]; simpl; try assumption.
  exists out, (taps N0 k interp). split; [exact Hout |].
  split; [apply taps_in_range; assumption |].
  unfold taps. repeat split; intros ->.
  - rewrite bool_decide_eq_true_2 by reflexivity.
    change (range 0 6) with [0; 1; 2; 3; 4; 5]%Z.
    cbn [map]. rewrite !np_mod_pos by exact HN. reflexivity.
  - rewrite (bool_decide_eq_false_2 ("Sinc" = "Lagrange")) by discriminate.
    rewrite (bool_decide_eq_false_2 ("Sinc" = "Linear")) by discriminate.
    change (range 0 11) with [0; 1; 2; 3; 4; 5; 6; 7; 8; 9; 10]%Z.
    cbn [map]. rewrite !np_mod_pos by exact HN. reflexivity.
  - rewrite (bool_decide_eq_false_2 ("Linear" = "Lagrange")) by discriminate.
    rewrite (bool_decide_eq_true_2 ("Linear" = "Linear")) by reflexivity.
    rewrite np_mod_pos by exact HN. reflexivity.
Qed.

(** C4.  In Linear mode, for every buffer content, every base index [k]
    in [[0, N)] and every fractional offset [d] (those of [[0, 1)] among
    them), the read returns [d * buffer[(k+1) mod N] + (1-d) * buffer[k]]. *)
Theorem linear_read_formula (self : DelayLine) (k : Z) (d : Q) :
  (0 < N self)%Z -> length (delay_line self) = Z.to_nat (N self) ->
  (0 <= k < N self)%Z ->
  exists b0 b1,
    delay_line self !! Z.to_nat k = Some b0 /\
    delay_line self !! Z.to_nat ((k + 1) mod N self) = Some b1 /\
    fst (interpolated_read self k d "Linear") = Ok (d * b1 + (1 - d) * b0).
Proof.
  intros HN Hlen Hk.
  destruct (lookup_lt_is_Some_2 (delay_line self) (Z.to_nat k)) as [b0 Hb0]; [lia |].
  pose proof (Z.mod_pos_bound (k + 1) (N self) HN) as Hk1.
  destruct (lookup_lt_is_Some_2 (delay_line self) (Z.to_nat ((k + 1) mod N self)))
    as [b1 Hb1]; [lia |].
  exists b0, b1. split; [exact Hb0 |]. split; [exact Hb1 |].
  unfold _interpolated_read.
  rewrite (bool_decide_eq_false_2 ("Linear" = "Lagrange")) by discriminate.
  rewrite (bool_decide_eq_true_2 ("Linear" = "Linear")) by reflexivity.
  unfold tbind, tret.
  rewrite (load_ok self _ Hlen (np_mod_range _ _ HN)), (load_ok self _ Hlen Hk).
  rewrite np_mod_pos by exact HN. rewrite Hb0, Hb1. reflexivity.
Qed.

End Reads.

(** * The wraparound loops of [update_delay_line] *)

Lemma with_read_ptr_id self : with_read_ptr self (read_ptr self) = self.
Proof. destruct self; reflexivity. Qed.

Lemma inject_Z_succ_nat f : inject_Z (Z.of_nat (S f)) == inject_Z (Z.of_nat f) + 1.
Proof. rewrite Nat2Z.inj_succ. unfold Z.succ. rewrite inject_Z_plus. reflexivity. Qed.

Lemma wrap_read_up_S f i :
  wrap_read_up (S f) i =
    (c <- (r <- getitem_read_ptr i ;; ret (Qlt_bool r 0)) ;;
     if (c : bool) then
       (r <- getitem_read_ptr i ;; n <- get N ;; setitem_read_ptr i (r + inject_Z n)) ;;
       wrap_read_up f i
     else ret tt).
Proof. reflexivity. Qed.


(** The second loop brings a write pointer of [[0, N]] back into [[0, N)]. *)
Lemma wrap_write_ok f self :
  (0 < N self)%Z -> (0 <= write_ptr self <= N self)%Z ->
  wrap_write (S (S f)) self =
    (Ok tt, with_write_ptr self
              (if (write_ptr self =? N self)%Z then 0%Z else write_ptr self)).
Proof.
  intros HN Hwp. unfold wrap_write. cbn [while_].
  rewrite (bind_ok _ _ _ (write_ptr self >=? N self)%Z self) by reflexivity.
  rewrite Z.geb_leb.
  destruct (Z.leb_spec (N self) (write_ptr self)) as [Hge | Hlt].
  - assert (E : write_ptr self = N self) by lia.
    rewrite (bind_ok _ _ _ tt (with_write_ptr self 0)).
    2:{ rewrite !bind_get. unfold set_write_ptr. rewrite E, Z.sub_diag. reflexivity. }
    rewrite (bind_ok _ _ _ false (with_write_ptr self 0)).
    2:{ rewrite !bind_get. unfold ret. simpl. rewrite Z.geb_leb.
        destruct (Z.leb_spec (N self) 0); [lia | reflexivity]. }
    rewrite E, Z.eqb_refl. reflexivity.
  - destruct (Z.eqb_spec (write_ptr self) (N self)); [lia |].
    destruct self; reflexivity.
Qed.


(** * One call of [update_delay_line] *)

Lemma Qfloor_in_range n r : in_range n r -> (0 <= Qfloor r < n)%Z.
Proof.
  intros [H0 Hn]. split.
  - change 0%Z with (Qfloor 0). apply Qfloor_resp_le. exact H0.
  - rewrite Zlt_Qlt. eapply Qle_lt_trans; [apply Qfloor_le | exact Hn].
Qed.

Lemma np_setitem_Z {A} (a : list A) (i : Z) v :
  (0 <= i < Z.of_nat (length a))%Z -> np_setitem a i v = Ok (<[Z.to_nat i := v]> a).
Proof.
  intros Hi. rewrite <- (Z2Nat.id i) at 1 by lia. apply np_setitem_nat. lia.
Qed.

Section Stepping.

Variable np_pi : Q.
Variables np_sin np_cos : Q -> Q.

Local Abbreviation body := (update_delay_line_body np_pi np_sin np_cos).
Local Abbreviation step := (update_delay_line np_pi np_sin np_cos).

(** The wrapped write pointer. *)
Definition wrap_wp (n wp : Z) : Z := if (wp =? n)%Z then 0%Z else wp.


Lemma wrap_wp_bounds n wp : (0 < n)%Z -> (0 <= wp <= n)%Z -> (0 <= wrap_wp n wp < n)%Z.
Proof. intros Hn Hwp. unfold wrap_wp. destruct (Z.eqb_spec wp n); lia. Qed.

Lemma wrap_wp_id n wp : (wp < n)%Z -> wrap_wp n wp = wp.
Proof. intros H. unfold wrap_wp. destruct (Z.eqb_spec wp n); [lia | reflexivity]. Qed.




End Stepping.

(** * Sequences of calls *)

(** A loop budget that suffices for a delay array, and for a sequence of
    calls: two tests more than the largest delay, rounded up. *)
Definition budget_delay (delay : list Q) : nat :=
  foldr (fun d acc => Nat.max (Z.to_nat (Qceiling d)) acc) 0%nat delay.


(** One finite non-negative delay per reader. *)
Definition valid_delay (m : nat) (delay : list Q) : Prop :=
  length delay = m /\ Forall (fun d => 0 <= d) delay.

Lemma budget_delay_bound delay f :
  Forall (fun d => 0 <= d) delay -> (budget_delay delay <= f)%nat ->
  Forall (fun d => 0 <= d /\ d <= inject_Z (Z.of_nat f)) delay.
Proof.
  induction delay as [| d delay IH]; intros Hd Hf; [constructor |].
  apply Forall_cons in Hd as [Hd0 Hd]. simpl in Hf.
  constructor; [| apply IH; [exact Hd | lia]].
  split; [exact Hd0 |].
  eapply Qle_trans; [apply Qle_ceiling |].
  rewrite <- Zle_Qle. lia.
Qed.

(** The buffer and write pointer after the samples [xs] have been written
    one per call. *)
Fixpoint ring_writes (n wp : Z) (xs : list Q) (buf : list Q) : Z * list Q :=
  match xs with
  | [] => (wp, buf)
  | x :: xs' => ring_writes n (wrap_wp n (wp + 1)) xs' (<[Z.to_nat wp := x]> buf)
  end.

Section Runs.

Variable np_pi : Q.
Variables np_sin np_cos : Q -> Q.

Local Abbreviation step := (update_delay_line np_pi np_sin np_cos).
Local Abbreviation drive := (run np_pi np_sin np_cos).






End Runs.

(** * The interpolation filters *)

(** At fractional offset 0 the Lagrange branch returns the sample two
    positions before the read position: the coefficients are those of the
    Lagrange basis at the point [d] of the nodes [0 .. 5], so at [d = 0] only
    tap 0 is non-zero, and tap [i] reads [buffer[(k + i - 2) mod N]]. *)
Lemma lagrange_read_zero_offset (np_pi : Q) (np_sin np_cos : Q -> Q) self k d :
  (0 < N self)%Z -> length (delay_line self) = Z.to_nat (N self) -> d == 0 ->
  exists out,
    fst (_interpolated_read np_pi np_sin np_cos self k d "Lagrange") = Ok out /\
    out == default 0 (delay_line self !! Z.to_nat ((k - 2) mod N self)).
Proof.
  intros HN Hlen Hd. unfold _interpolated_read.
  rewrite (bool_decide_eq_true_2 ("Lagrange" = "Lagrange")) by reflexivity.
  cbv zeta. rewrite fir_loop_ok; [| assumption | assumption | apply range_bounds].
  eexists. split; [reflexivity |].
  unfold fir_value.
  replace ((k - 2) mod N self)%Z
    with (np_mod (k + 0 - Qfloor (inject_Z 5 / 2)) (N self)).
  2:{ rewrite np_mod_pos by exact HN. f_equal.
      change (Qfloor (inject_Z 5 / 2)) with 2%Z. lia. }
  set (b := fun i => default 0 (delay_line self
                !! Z.to_nat (np_mod (k + i - Qfloor (inject_Z 5 / 2)) (N self)))).
  change (foldl (fun acc i => acc + default 0 (_frac_delay_lagrange 5 d !! Z.to_nat i) * b i)
            0 (range 0 (Z.of_nat (length (_frac_delay_lagrange 5 d)))) == b 0%Z).
  clearbody b.
  cbv -[Qmult Qdiv Qminus Qplus Qeq].
  rewrite Hd. field.
Qed.

(** C2.  The claim that a Lagrange read at fractional offset 0 returns
    the sample at the read position [k] fails on the code: on the buffer
    [0, 1, ..., 9] with [k = 5] and [d = 0] the read returns 3, the sample at
    index [k - 2], which differs from [buffer[5] = 5] by more than 1e-9. *)
Theorem lagrange_zero_offset_reads_two_back (np_pi : Q) (np_sin np_cos : Q -> Q) :
  let self := mkDelayLine 10 0 [5] [0; 1; 2; 3; 4; 5; 6; 7; 8; 9] "Lagrange" in
  exists out,
    fst (_interpolated_read np_pi np_sin np_cos self 5 0 "Lagrange") = Ok out /\
    delay_line self !! 5%nat = Some 5 /\
    out == 3 /\
    ~ Qabs (out - 5) <= 1e-9.
Proof.
  eexists. split; [vm_compute; reflexivity |].
  split; [reflexivity |]. split; [reflexivity |].
  vm_compute. intros H. apply H. reflexivity.
Qed.

(** C3.  Linear mode, capacity 10, one reader, delay 3.0 set with
    [set_delays] and passed to every call: on the impulse 1, 0, 0, 0 the
    outputs of calls 0, 1 and 2 are 0 and the output of call 3 is 1, for
    every loop budget of at least two tests. *)
Theorem linear_impulse_at_delay_3 (np_pi : Q) (np_sin np_cos : Q -> Q) (f : nat) :
  exists dl self' y0 y1 y2 y3,
    __init__ 10 1 "Linear" = Ok dl /\
    (set_delays [3] ;;
     run np_pi np_sin np_cos (S (S f)) [(1, [3]); (0, [3]); (0, [3]); (0, [3])]) dl
      = (Ok [[y0]; [y1]; [y2]; [y3]], self') /\
    y3 == 1 /\ Qabs (y3 - 1) <= 1e-9 /\ y0 == 0 /\ y1 == 0 /\ y2 == 0.
Proof.
  do 6 eexists. split; [reflexivity |]. split; [vm_compute; reflexivity |].
  repeat split; vm_compute; congruence.
Qed.


(** Hence the Lagrange read of a constant buffer returns the constant:
    unit gain at zero frequency, whatever [d]. *)
Lemma lagrange_read_constant (np_pi : Q) (np_sin np_cos : Q -> Q) self k d c :
  (0 < N self)%Z -> delay_line self = replicate (Z.to_nat (N self)) c ->
  exists out,
    fst (_interpolated_read np_pi np_sin np_cos self k d "Lagrange") = Ok out /\
    out == c.
Proof.
  intros HN Hbuf. unfold _interpolated_read.
  rewrite (bool_decide_eq_true_2 ("Lagrange" = "Lagrange")) by reflexivity.
  cbv zeta. rewrite fir_loop_ok; [| exact HN | | apply range_bounds].
  2:{ rewrite Hbuf. apply length_replicate. }
  eexists. split; [reflexivity |].
  unfold fir_value.
  assert (Hb : forall i, default 0 (delay_line self
             !! Z.to_nat (np_mod (k + i - Qfloor (inject_Z 5 / 2)) (N self))) = c).
  { intros i. rewrite Hbuf, lookup_replicate_2; [reflexivity |].
    pose proof (np_mod_range (k + i - Qfloor (inject_Z 5 / 2)) _ HN). lia. }
  set (b := fun i => default 0 (delay_line self
                !! Z.to_nat (np_mod (k + i - Qfloor (inject_Z 5 / 2)) (N self)))) in *.
  change (foldl (fun acc i => acc + default 0 (_frac_delay_lagrange 5 d !! Z.to_nat i) * b i)
            0 (range 0 (Z.of_nat (length (_frac_delay_lagrange 5 d)))) == c).
  change (forall i, b i = c) in Hb. clearbody b.
  cbv -[Qmult Qdiv Qminus Qplus Qeq].
  rewrite !Hb. field.
Qed.

(** * Concrete runs

    Rational stand-ins for numpy's [pi], [sin] and [cos], with which the
    rational model runs in every mode. *)

Definition approx_pi : Q := 355 # 113.
Definition approx_sin (x : Q) : Q := x - x * x * x / 6.
Definition approx_cos (x : Q) : Q := 1 - x * x / 2.


(** A Linear read at the last index of a buffer of four samples, where
    [k + 1] wraps to index 0. *)
Lemma linear_read_formula_witness :
  let self := mkDelayLine 4 0 [3.25] [10; 20; 30; 40] "Linear" in
  exists b0 b1,
    delay_line self !! 3%nat = Some b0 /\
    delay_line self !! 0%nat = Some b1 /\
    fst (_interpolated_read approx_pi approx_sin approx_cos self 3 0.25 "Linear")
      = Ok (0.25 * b1 + (1 - 0.25) * b0).
Proof.
  intros self.
  apply (linear_read_formula approx_pi approx_sin approx_cos self 3 0.25).
  - simpl. lia.
  - reflexivity.
  - simpl. lia.
Defined.

(** A Sinc read at index 3 of a delay line of capacity 4. *)
Lemma interpolated_read_in_bounds_witness :
  __init__ 4 1 "Sinc" = Ok (mkDelayLine 4 0 [0] [0; 0; 0; 0] "Sinc") /\
  exists out trace,
    _interpolated_read approx_pi approx_sin approx_cos
      (mkDelayLine 4 2 [3.5] [1; 2; 3; 4] "Sinc") 3 0.5 "Sinc" = (Ok out, trace) /\
    Forall (fun i => (0 <= i < 4)%Z) trace /\
    ("Sinc" = "Lagrange" ->
       trace = map (fun i => ((3 + i - 2) mod 4)%Z) [0; 1; 2; 3; 4; 5]%Z) /\
    ("Sinc" = "Sinc" ->
       trace = map (fun i => ((3 + i - 5) mod 4)%Z) [0; 1; 2; 3; 4; 5; 6; 7; 8; 9; 10]%Z) /\
    ("Sinc" = "Linear" -> trace = [((3 + 1) mod 4)%Z; 3%Z]).
Proof.
  split; [reflexivity |].
  apply (interpolated_read_in_bounds approx_pi approx_sin approx_cos 4 1 "Sinc"
           (mkDelayLine 4 0 [0] [0; 0; 0; 0] "Sinc") 2 [3.5] [1; 2; 3; 4] 3 0.5).
  - reflexivity.
  - reflexivity.
  - lia.
Defined.


(** * The Sinc coefficients over the reals

    [_frac_delay_sinc] and the numpy routines it is called with, embedded a
    second time with real-valued floats, so that [np.sinc] and [np.hanning]
    are the functions numpy computes: [sin], [cos] and [PI] are those of the
    Standard Library. *)

Module Real.

Local Open Scope R_scope.

(** [np.sinc(x)]: [y = pi * where(x == 0, 1.0e-20, x); sin(y) / y] *)
Definition np_sinc (x : R) : R :=
  let y := PI * (if Req_dec_T x 0 then 1 / 10 ^ 20 else x) in
  sin y / y.

(** [np.hanning(M)]: [n = arange(1 - M, M, 2); 0.5 + 0.5 * cos(pi * n / (M - 1))] *)
Definition np_hanning (m : Z) : list R :=
  if (m <? 1)%Z then []
  else if (m =? 1)%Z then [1]
  else map (fun n => 1 / 2 + 1 / 2 * cos (PI * IZR n / IZR (m - 1))) (range2 (1 - m) m).

(** [DelayLine._frac_delay_sinc] *)
Definition _frac_delay_sinc (sinc_samples : Z) (sinc_window : list R) (delay : R)
  : result (list R) :=
  np_mul Rmult sinc_window
    (map (fun n => np_sinc (IZR n - IZR (sinc_samples - 1) / 2 - delay))
         (range 0 sinc_samples)).

(** The coefficient vector is symmetric about its center index, within 1e-9. *)
Definition symmetric_about_center (h : list R) : Prop :=
  forall j, (j <= 10)%nat -> Rabs (nth j h 0 - nth (10 - j) h 0) <= 1 / 1000000000.

(** Entry [j] of the 11-point Hann window. *)
Definition hann11 (j : Z) : R := 1 / 2 + 1 / 2 * cos (PI * IZR (2 * j - 10) / IZR 10).

Lemma np_hanning_11 :
  np_hanning 11 = map hann11 [0; 1; 2; 3; 4; 5; 6; 7; 8; 9; 10]%Z.
Proof. reflexivity. Qed.

Lemma frac_delay_sinc_coefficients d :
  _frac_delay_sinc 11 (np_hanning 11) d =
    Ok (map (fun j => hann11 j * np_sinc (IZR j - IZR 10 / 2 - d))
            [0; 1; 2; 3; 4; 5; 6; 7; 8; 9; 10]%Z).
Proof. reflexivity. Qed.

Lemma nth_map_0_10 (f : Z -> R) (j : nat) :
  (j <= 10)%nat -> nth j (map f [0; 1; 2; 3; 4; 5; 6; 7; 8; 9; 10]%Z) 0 = f (Z.of_nat j).
Proof.
  intros Hj. do 11 (destruct j as [| j]; [reflexivity |]). lia.
Qed.

Lemma np_sinc_even x : np_sinc (- x) = np_sinc x.
Proof.
  unfold np_sinc. cbv zeta.
  destruct (Req_dec_T x 0) as [-> | Hx].
  - destruct (Req_dec_T (- 0) 0) as [_ | H]; [reflexivity | exfalso; apply H; lra].
  - destruct (Req_dec_T (- x) 0) as [H | _]; [exfalso; apply Hx; lra |].
    replace (PI * - x) with (- (PI * x)) by ring.
    rewrite sin_neg. field.
    pose proof PI_RGT_0. nra.
Qed.

Lemma hann11_sym j : hann11 (10 - j) = hann11 j.
Proof.
  unfold hann11.
  replace (IZR (2 * (10 - j) - 10)) with (- IZR (2 * j - 10))
    by (rewrite <- opp_IZR; f_equal; lia).
  replace (PI * - IZR (2 * j - 10) / IZR 10) with (- (PI * IZR (2 * j - 10) / IZR 10))
    by (field; lra).
  rewrite cos_neg. reflexivity.
Qed.

Lemma hann11_ge j : (3 <= j <= 7)%Z -> 1 / 2 <= hann11 j.
Proof.
  intros Hj. unfold hann11.
  assert (0 < cos (PI * IZR (2 * j - 10) / IZR 10)); [| lra].
  pose proof PI_RGT_0 as Hpi.
  assert (-4 <= IZR (2 * j - 10) <= 4) as [H1 H2].
  { split; apply IZR_le; lia. }
  set (c := IZR (2 * j - 10) / 10).
  replace (PI * IZR (2 * j - 10) / IZR 10) with (PI * c) by (unfold c; field).
  assert (Hc : - (4 / 10) <= c <= 4 / 10) by (unfold c; lra).
  assert (PI * c <= PI * (4 / 10)) by (apply Rmult_le_compat_l; lra).
  assert (PI * - (4 / 10) <= PI * c) by (apply Rmult_le_compat_l; lra).
  clearbody c. apply cos_gt_0; lra.
Qed.

Lemma np_sinc_half : np_sinc (1 / 2) = 2 / PI.
Proof.
  unfold np_sinc. cbv zeta.
  destruct (Req_dec_T (1 / 2) 0) as [H | _]; [lra |].
  replace (PI * (1 / 2)) with (PI / 2) by field.
  rewrite sin_PI2. field. pose proof PI_RGT_0. lra.
Qed.

Lemma np_sinc_three_halves : np_sinc (3 / 2) = - (2 / (3 * PI)).
Proof.
  unfold np_sinc. cbv zeta.
  destruct (Req_dec_T (3 / 2) 0) as [H | _]; [lra |].
  replace (PI * (3 / 2)) with (3 * (PI / 2)) by field.
  rewrite sin_3PI2. field. pose proof PI_RGT_0. lra.
Qed.

(** C7, as stated, fails: at [d = 0.5] taps 4 and 6 of the Hann-windowed
    sinc vector differ by more than 1/4 ([h[4] < 0] and [h[6] >= 1/4]). *)
Lemma sinc_half_not_symmetric :
  exists h, _frac_delay_sinc 11 (np_hanning 11) (1 / 2) = Ok h /\
            ~ symmetric_about_center h.
Proof.
  eexists. split; [apply frac_delay_sinc_coefficients |].
  intros Hsym. specialize (Hsym 4%nat ltac:(lia)).
  change (10 - 4)%nat with 6%nat in Hsym.
  rewrite (nth_map_0_10 _ 4), (nth_map_0_10 _ 6) in Hsym by lia.
  change (Z.of_nat 4) with 4%Z in Hsym. change (Z.of_nat 6) with 6%Z in Hsym.
  replace (IZR 4 - IZR 10 / 2 - 1 / 2) with (- (3 / 2)) in Hsym by lra.
  replace (IZR 6 - IZR 10 / 2 - 1 / 2) with (1 / 2) in Hsym by lra.
  rewrite np_sinc_even, np_sinc_three_halves, np_sinc_half in Hsym.
  pose proof (hann11_ge 4 ltac:(lia)) as H4.
  pose proof (hann11_ge 6 ltac:(lia)) as H6.
  pose proof PI_RGT_0 as Hpi. pose proof PI_4 as Hpi4.
  assert (Hinv : / 4 <= / PI) by (apply Rinv_le_contravar; lra).
  assert (Hinv0 : 0 < / PI) by (apply Rinv_0_lt_compat; lra).
  assert (Hh6 : 1 / 4 <= hann11 6 * (2 / PI)).
  { replace (1 / 4) with (1 / 2 * (2 * / 4)) by field.
    apply Rmult_le_compat; lra. }
  assert (Hh4 : hann11 4 * - (2 / (3 * PI)) <= 0).
  { replace (2 / (3 * PI)) with (2 / 3 * / PI) by (field; lra).
    assert (0 <= hann11 4 * (2 / 3 * / PI)) by (apply Rmult_le_pos; lra).
    lra. }
  revert Hsym. unfold Rabs. destruct (Rcase_abs _); lra.
Qed.

(** C7, amended.  At [d = 0.5] the coefficient vector has 11 entries,
    [h[j] = window[j] * sinc(j - 5 - d)]; the Hann window is symmetric about
    index 5 ([window[j] = window[10 - j]]) and the sinc factor about 5.5
    ([sinc(j - 5 - d) = sinc((11 - j) - 5 - d)]). *)
Theorem sinc_half_factors_symmetric :
  exists h, _frac_delay_sinc 11 (np_hanning 11) (1 / 2) = Ok h /\
    length h = 11%nat /\
    (forall j, (j <= 10)%nat ->
       nth j h 0 = nth j (np_hanning 11) 0 * np_sinc (INR j - 5 - 1 / 2)) /\
    (forall j, (j <= 10)%nat ->
       nth j (np_hanning 11) 0 = nth (10 - j) (np_hanning 11) 0) /\
    (forall j, (1 <= j <= 10)%nat ->
       np_sinc (INR j - 5 - 1 / 2) = np_sinc (INR (11 - j) - 5 - 1 / 2)).
Proof.
  eexists. split; [apply frac_delay_sinc_coefficients |]. split; [reflexivity |].
  split; [| split].
  - intros j Hj. rewrite np_hanning_11, !nth_map_0_10 by exact Hj.
    rewrite INR_IZR_INZ. do 2 f_equal. lra.
  - intros j Hj. rewrite np_hanning_11, !nth_map_0_10 by lia.
    rewrite Nat2Z.inj_sub by exact Hj. symmetry. apply hann11_sym.
  - intros j Hj. rewrite <- np_sinc_even. f_equal.
    rewrite minus_INR by lia. simpl INR. lra.
Qed.

(** Taps 4 and 6 of the window, and taps 4 and 7 of the sinc factor. *)
Lemma sinc_half_factors_symmetric_witness :
  exists h, _frac_delay_sinc 11 (np_hanning 11) (1 / 2) = Ok h /\
    nth 4 h 0 = nth 4 (np_hanning 11) 0 * np_sinc (INR 4 - 5 - 1 / 2) /\
    nth 4 (np_hanning 11) 0 = nth 6 (np_hanning 11) 0 /\
    np_sinc (INR 4 - 5 - 1 / 2) = np_sinc (INR 7 - 5 - 1 / 2).
Proof.
  destruct sinc_half_factors_symmetric as (h & Hh & _ & Hprod & Hwin & Hsinc).
  exists h. split; [exact Hh |].
  split; [apply (Hprod 4%nat); lia |].
  split; [apply (Hwin 4%nat); lia | apply (Hsinc 4%nat); lia].
Defined.

Lemma hann11_ends : hann11 0 = 0 /\ hann11 10 = 0.
Proof.
  unfold hann11. split.
  - replace (PI * IZR (2 * 0 - 10) / IZR 10) with (- PI)
      by (change (2 * 0 - 10)%Z with (-10)%Z; field).
    rewrite cos_neg, cos_PI. field.
  - replace (PI * IZR (2 * 10 - 10) / IZR 10) with PI
      by (change (2 * 10 - 10)%Z with 10%Z; field).
    rewrite cos_PI. field.
Qed.

(** X10.  Whatever the fractional delay, the first and the last of the
    eleven Sinc coefficients are 0, the Hann window being 0 at both ends:
    nine taps contribute to a Sinc read. *)
Theorem sinc_end_taps_zero (d : R) :
  exists h, _frac_delay_sinc 11 (np_hanning 11) d = Ok h /\
    length h = 11%nat /\ nth 0 h 0 = 0 /\ nth 10 h 0 = 0.
Proof.
  eexists. split; [apply frac_delay_sinc_coefficients |]. split; [reflexivity |].
  rewrite (nth_map_0_10 _ 0), (nth_map_0_10 _ 10) by lia.
  change (Z.of_nat 0) with 0%Z. change (Z.of_nat 10) with 10%Z.
  destruct hann11_ends as [-> ->]. split; apply Rmult_0_l.
Qed.

End Real.

(** * What one call computes

    The rest of the file states what [update_delay_line] returns and where it
    leaves the read pointers, and derives the behaviour of whole runs. *)

(** The read only looks at the buffer and at [N]. *)
Lemma fir_loop_ext s1 s2 h k off :
  N s1 = N s2 -> delay_line s1 = delay_line s2 ->
  forall idx out, fir_loop s1 h k off idx out = fir_loop s2 h k off idx out.
Proof.
  intros HN Hbuf. induction idx as [| i idx IH]; intros out; [reflexivity |].
  cbn [fir_loop]. unfold tbind, load. rewrite HN, Hbuf.
  destruct (tlift (np_getitem h i)) as [[c | e] t]; [| reflexivity].
  destruct (np_getitem (delay_line s2) _) as [b | e]; [| reflexivity].
  rewrite IH. reflexivity.
Qed.

Lemma interpolated_read_ext (np_pi : Q) (np_sin np_cos : Q -> Q) s1 s2 k d method :
  N s1 = N s2 -> delay_line s1 = delay_line s2 ->
  _interpolated_read np_pi np_sin np_cos s1 k d method =
  _interpolated_read np_pi np_sin np_cos s2 k d method.
Proof.
  intros HN Hbuf. unfold _interpolated_read.
  rewrite !(fir_loop_ext s1 s2) by assumption.
  unfold load. rewrite HN, Hbuf.
  destruct (bool_decide (method = "Lagrange")); [reflexivity |].
  destruct (bool_decide (method = "Linear")); [reflexivity |].
  destruct (bool_decide (method = "Sinc")); [| reflexivity].
  cbv zeta. unfold tbind.
  destruct (tlift _) as [[h | e] t]; [| reflexivity].
  rewrite (fir_loop_ext s1 s2) by assumption. reflexivity.
Qed.

(** The first loop, with the multiple of [N] it has added. *)
Lemma wrap_read_up_spec (i : nat) : forall f self r,
  read_ptr self !! i = Some r ->
  (0 < N self)%Z ->
  - r <= inject_Z (Z.of_nat f) ->
  exists r' (m : Z),
    wrap_read_up (S f) (Z.of_nat i) self =
      (Ok tt, with_read_ptr self (<[i := r']> (read_ptr self))) /\
    0 <= r' /\ (r <= inject_Z (N self) -> r' <= inject_Z (N self)) /\
    r' == r + inject_Z m * inject_Z (N self).
Proof.
  induction f as [| f IH]; intros self r Hr HN Hf;
    rewrite wrap_read_up_S;
    rewrite (bind_ok _ _ _ _ _
               (bind_ok _ _ _ _ _ (getitem_read_ptr_nat _ _ _ Hr)));
    unfold ret at 1.
  - assert (E : Qlt_bool r 0 = false).
    { apply Qlt_bool_false. change (inject_Z (Z.of_nat 0)) with 0 in Hf. lra. }
    rewrite E. exists r, 0%Z. rewrite list_insert_id by exact Hr.
    rewrite with_read_ptr_id. split; [reflexivity |].
    apply Qlt_bool_false in E. split; [exact E |]. split; [auto |].
    change (inject_Z 0) with 0. ring.
  - destruct (Qlt_bool r 0) eqn:E.
    + apply Qlt_bool_iff in E.
      pose proof (lookup_lt_Some _ _ _ Hr) as Hi.
      rewrite (bind_ok _ _ _ tt
                 (with_read_ptr self (<[i := r + inject_Z (N self)]> (read_ptr self)))).
      2:{ rewrite (bind_ok _ _ _ _ _ (getitem_read_ptr_nat _ _ _ Hr)).
          rewrite bind_get. apply setitem_read_ptr_nat. exact Hi. }
      assert (HNq : 1 <= inject_Z (N self)).
      { change 1 with (inject_Z 1). rewrite <- Zle_Qle. lia. }
      destruct (IH (with_read_ptr self (<[i := r + inject_Z (N self)]> (read_ptr self)))
                   (r + inject_Z (N self))) as (r' & m & Hrun & H0 & HN' & Hm).
      * simpl. apply list_lookup_insert_eq. exact Hi.
      * exact HN.
      * rewrite inject_Z_succ_nat in Hf. lra.
      * exists r', (m + 1)%Z. rewrite Hrun. simpl. rewrite list_insert_insert_eq.
        split; [reflexivity |]. split; [exact H0 |].
        split; [intros _; apply HN'; simpl; lra |].
        simpl in Hm. rewrite Hm, inject_Z_plus. change (inject_Z 1) with 1. ring.
    + exists r, 0%Z. rewrite list_insert_id by exact Hr.
      rewrite with_read_ptr_id. split; [reflexivity |].
      apply Qlt_bool_false in E. split; [exact E |]. split; [auto |].
      change (inject_Z 0) with 0. ring.
Qed.

(** The third loop, with the multiple of [N] it has subtracted. *)
Lemma wrap_read_down_spec (i : nat) f self r :
  read_ptr self !! i = Some r ->
  (0 < N self)%Z ->
  0 <= r -> r <= inject_Z (N self) ->
  exists r' (m : Z),
    wrap_read_down (S (S f)) (Z.of_nat i) self =
      (Ok tt, with_read_ptr self (<[i := r']> (read_ptr self))) /\
    in_range (N self) r' /\ r' == r + inject_Z m * inject_Z (N self).
Proof.
  intros Hr HN H0 HrN. unfold wrap_read_down. cbn [while_].
  pose proof (lookup_lt_Some _ _ _ Hr) as Hi.
  rewrite Zlt_Qlt in HN. change (inject_Z 0) with 0 in HN.
  rewrite (bind_ok _ _ _ (Qle_bool (inject_Z (N self)) r) self).
  2:{ rewrite (bind_ok _ _ _ _ _ (getitem_read_ptr_nat _ _ _ Hr)). reflexivity. }
  destruct (Qle_bool (inject_Z (N self)) r) eqn:E.
  - apply Qle_bool_iff in E.
    set (s1 := with_read_ptr self (<[i := r - inject_Z (N self)]> (read_ptr self))).
    rewrite (bind_ok _ _ _ tt s1).
    2:{ rewrite (bind_ok _ _ _ _ _ (getitem_read_ptr_nat _ _ _ Hr)).
        rewrite bind_get. apply setitem_read_ptr_nat. exact Hi. }
    assert (Hr1 : read_ptr s1 !! i = Some (r - inject_Z (N self))).
    { apply list_lookup_insert_eq. exact Hi. }
    rewrite (bind_ok _ _ _ false s1).
    2:{ rewrite (bind_ok _ _ _ _ _ (getitem_read_ptr_nat _ _ _ Hr1)).
        rewrite bind_get. unfold ret. f_equal. f_equal.
        apply Qle_bool_false. simpl. lra. }
    exists (r - inject_Z (N self)), (-1)%Z. split; [reflexivity |].
    split; [unfold in_range; lra |].
    change (inject_Z (-1)) with (-1 # 1). ring.
  - apply Qle_bool_false in E.
    exists r, 0%Z. rewrite list_insert_id by exact Hr. rewrite with_read_ptr_id.
    split; [reflexivity |]. split; [unfold in_range; lra |].
    change (inject_Z 0) with 0. ring.
Qed.

(** Two positions that differ by a whole number of buffer lengths. *)
Definition congruent (n : Z) (a b : Q) : Prop :=
  exists m : Z, a == b + inject_Z m * inject_Z n.

Lemma congruent_trans n a b c : congruent n a b -> congruent n b c -> congruent n a c.
Proof.
  intros [m1 H1] [m2 H2]. exists (m1 + m2)%Z.
  rewrite H1, H2, inject_Z_plus. ring.
Qed.

Lemma congruent_sym n a b : congruent n a b -> congruent n b a.
Proof.
  intros [m H]. exists (- m)%Z. rewrite H, inject_Z_opp. ring.
Qed.

Lemma congruent_wrap_wp n wp d :
  congruent n (inject_Z (wrap_wp n wp) - d) (inject_Z wp - d).
Proof.
  unfold wrap_wp. destruct (Z.eqb_spec wp n) as [-> | _].
  - exists (-1)%Z. change (inject_Z (-1)) with (-1 # 1). change (inject_Z 0) with 0. ring.
  - exists 0%Z. change (inject_Z 0) with 0. ring.
Qed.

Section StepSpec.

Variable np_pi : Q.
Variables np_sin np_cos : Q -> Q.

Local Abbreviation body := (update_delay_line_body np_pi np_sin np_cos).
Local Abbreviation step := (update_delay_line np_pi np_sin np_cos).

(** The read [update_delay_line] makes for a read pointer at position [r]:
    integer part [floor r], fractional part [r - floor r], the object's mode. *)
Definition read_at (self : DelayLine) (r : Q) : result Q :=
  fst (_interpolated_read np_pi np_sin np_cos self (Qfloor r) (r - inject_Z (Qfloor r))
         (interpolation self)).

Lemma read_at_ext s1 s2 r :
  N s1 = N s2 -> delay_line s1 = delay_line s2 -> interpolation s1 = interpolation s2 ->
  read_at s1 r = read_at s2 r.
Proof.
  intros HN Hbuf Hmode. unfold read_at.
  rewrite Hmode, (interpolated_read_ext _ _ _ s1 s2) by assumption. reflexivity.
Qed.

Lemma update_body_spec f delay self (i : nat) y r d :
  (0 < N self)%Z -> (0 <= write_ptr self <= N self)%Z ->
  length (delay_line self) = Z.to_nat (N self) ->
  valid_mode (interpolation self) ->
  read_ptr self !! i = Some r -> in_range (N self) r ->
  delay !! i = Some d -> 0 <= d -> d <= inject_Z (Z.of_nat f) ->
  (i < length y)%nat ->
  exists out r',
    body (S (S f)) delay (Z.of_nat i) y self =
      (Ok (<[i := out]> y),
       mkDelayLine (N self) (wrap_wp (N self) (write_ptr self))
         (<[i := r']> (read_ptr self)) (delay_line self) (interpolation self)) /\
    read_at self r = Ok out /\
    in_range (N self) r' /\
    congruent (N self) r' (inject_Z (write_ptr self) - d).
Proof.
  intros HN Hwp Hlen Hmode Hr Hrange Hd Hd0 Hdf Hy.
  pose proof (lookup_lt_Some _ _ _ Hr) as Hi.
  destruct (interpolated_read_ok np_pi np_sin np_cos self (Qfloor r)
              (r - inject_Z (Qfloor r)) (interpolation self) HN Hlen Hmode
              (Qfloor_in_range _ _ Hrange)) as [out Hout].
  unfold update_delay_line_body.
  rewrite (bind_ok _ _ _ _ _ (getitem_read_ptr_nat _ _ _ Hr)). cbv zeta.
  rewrite bind_get.
  rewrite (bind_ok _ _ _ out self)
    by (unfold call_interpolated_read; rewrite Hout; reflexivity).
  rewrite (bind_lift_ok _ _ _ _ (np_setitem_nat y i out Hy)).
  rewrite bind_get.
  rewrite (bind_lift_ok _ _ _ _ (np_getitem_nat _ _ _ Hd)).
  rewrite (bind_ok _ _ _ _ _ (setitem_read_ptr_nat _ _ _ Hi)).
  set (r1 := inject_Z (write_ptr self) - d).
  set (s1 := with_read_ptr self (<[i := r1]> (read_ptr self))).
  assert (Hwp0 : 0 <= inject_Z (write_ptr self)).
  { change 0 with (inject_Z 0). rewrite <- Zle_Qle. lia. }
  assert (HwpN : inject_Z (write_ptr self) <= inject_Z (N self)).
  { rewrite <- Zle_Qle. lia. }
  destruct (wrap_read_up_spec i (S f) s1 r1) as (r2 & m2 & Hup & Hr2 & Hr2N & Hm2).
  { apply list_lookup_insert_eq. exact Hi. }
  { exact HN. }
  { rewrite inject_Z_succ_nat. unfold r1. lra. }
  rewrite (bind_ok _ _ _ _ _ Hup).
  set (s2 := with_read_ptr s1 (<[i := r2]> (read_ptr s1))).
  rewrite (bind_ok _ _ _ _ _ (wrap_write_ok f s2 HN Hwp)).
  set (s3 := with_write_ptr s2 _).
  destruct (wrap_read_down_spec i f s3 r2) as (r3 & m3 & Hdown & Hr3 & Hm3).
  { simpl. apply list_lookup_insert_eq. rewrite length_insert. exact Hi. }
  { exact HN. }
  { exact Hr2. }
  { apply Hr2N. simpl. unfold r1. lra. }
  rewrite (bind_ok _ _ _ _ _ Hdown).
  exists out, r3. split; [| split; [| split]].
  - unfold ret, s3, s2, s1, with_write_ptr, with_read_ptr, wrap_wp. simpl.
    rewrite !list_insert_insert_eq. reflexivity.
  - unfold read_at. rewrite Hout. reflexivity.
  - exact Hr3.
  - apply (congruent_trans _ _ r2); [exists m3; exact Hm3 | exists m2; exact Hm2].
Qed.

(** The loop over the readers [i, i + n): what it stores in [y] and in
    [read_ptr], and what it leaves alone. *)
Lemma update_loop_spec f delay n : forall (i : nat) self y,
  (0 < N self)%Z -> (0 <= write_ptr self <= N self)%Z ->
  length (delay_line self) = Z.to_nat (N self) ->
  valid_mode (interpolation self) ->
  Forall (in_range (N self)) (read_ptr self) ->
  (i + n <= length (read_ptr self))%nat ->
  (i + n <= length delay)%nat ->
  Forall (fun d => 0 <= d /\ d <= inject_Z (Z.of_nat f)) delay ->
  length y = length (read_ptr self) ->
  exists y' rp',
    for_ (map Z.of_nat (seq i n)) (body (S (S f)) delay) y self =
      (Ok y', mkDelayLine (N self)
                (match n with O => write_ptr self
                            | S _ => wrap_wp (N self) (write_ptr self) end)
                rp' (delay_line self) (interpolation self)) /\
    Forall (in_range (N self)) rp' /\ length rp' = length (read_ptr self) /\
    length y' = length y /\
    (forall j, ~ (i <= j < i + n)%nat ->
       rp' !! j = read_ptr self !! j /\ y' !! j = y !! j) /\
    (forall j r d, (i <= j < i + n)%nat ->
       read_ptr self !! j = Some r -> delay !! j = Some d ->
       exists out r',
         y' !! j = Some out /\ read_at self r = Ok out /\
         rp' !! j = Some r' /\
         congruent (N self) r' (inject_Z (write_ptr self) - d)).
Proof.
  induction n as [| n IH]; intros i self y HN Hwp Hlen Hmode Hrp Hi Hdelay Hd Hy.
  - exists y, (read_ptr self). destruct self. simpl.
    repeat split; auto. intros j r d Hj. lia.
  - cbn [seq map for_].
    destruct (lookup_lt_is_Some_2 (read_ptr self) i) as [r Hr]; [lia |].
    destruct (lookup_lt_is_Some_2 delay i) as [d Hdi]; [lia |].
    pose proof (Forall_lookup_1 _ _ _ _ Hrp Hr) as Hrange.
    destruct (Forall_lookup_1 _ _ _ _ Hd Hdi) as [Hd0 Hdf].
    destruct (update_body_spec f delay self i y r d)
      as (out & r1 & Hbody & Hout & Hr1 & Hcong); try assumption; [lia |].
    rewrite (bind_ok _ _ _ _ _ Hbody).
    pose proof (wrap_wp_bounds _ _ HN Hwp) as Hwp1.
    set (s1 := mkDelayLine (N self) (wrap_wp (N self) (write_ptr self))
                 (<[i := r1]> (read_ptr self)) (delay_line self) (interpolation self)).
    destruct (IH (S i) s1 (<[i := out]> y))
      as (y2 & rp2 & Hloop & Hrp2 & Hlen2 & Hy2 & Hout2 & Hin2); simpl; try assumption.
    + lia.
    + apply Forall_insert; assumption.
    + rewrite length_insert. lia.
    + lia.
    + rewrite !length_insert. exact Hy.
    + exists y2, rp2. rewrite Hloop. simpl in *.
      rewrite length_insert in Hlen2, Hy2.
      split.
      { destruct n; [reflexivity |].
        rewrite (wrap_wp_id _ (wrap_wp _ _)) by lia. reflexivity. }
      split; [exact Hrp2 |]. split; [exact Hlen2 |]. split; [exact Hy2 |].
      split.
      * intros j Hj. destruct (Hout2 j ltac:(lia)) as [E1 E2].
        rewrite E1, E2, !list_lookup_insert_ne by lia. auto.
      * intros j r' d' Hj Hrj Hdj.
        destruct (decide (j = i)) as [-> | Hne].
        -- destruct (Hout2 i ltac:(lia)) as [E1 E2].
           rewrite Hr in Hrj. injection Hrj as <-.
           rewrite Hdi in Hdj. injection Hdj as <-.
           exists out, r1. rewrite E1, E2.
           rewrite !list_lookup_insert_eq by lia. auto.
        -- destruct (Hin2 j r' d') as (out' & r2 & E1 & E2 & E3 & E4).
           { lia. }
           { rewrite list_lookup_insert_ne by lia. exact Hrj. }
           { exact Hdj. }
           exists out', r2. split; [exact E1 |]. split.
           { rewrite <- E2. apply read_at_ext; reflexivity. }
           split; [exact E3 |].
           eapply congruent_trans; [exact E4 | apply congruent_wrap_wp].
Qed.


Lemma wrap_wp_mod n wp : (0 <= wp < n)%Z -> wrap_wp n (wp + 1) = ((wp + 1) mod n)%Z.
Proof.
  intros Hwp. unfold wrap_wp. destruct (Z.eqb_spec (wp + 1) n) as [E | E].
  - rewrite E, Z.mod_same by lia. reflexivity.
  - rewrite Z.mod_small by lia. reflexivity.
Qed.

(** One call, in full: the object it leaves, the outputs and the new read
    pointers. *)
Lemma update_delay_line_spec fuel x delay self :
  wf self ->
  valid_delay (length (read_ptr self)) delay ->
  (2 + budget_delay delay <= fuel)%nat ->
  exists y rp',
    let self' := mkDelayLine (N self) (wrap_wp (N self) (write_ptr self + 1)) rp'
                   (<[Z.to_nat (write_ptr self) := x]> (delay_line self))
                   (interpolation self) in
    step fuel x delay self = (Ok y, self') /\
    wf self' /\
    length rp' = length (read_ptr self) /\
    length y = length (read_ptr self) /\
    forall j r d, read_ptr self !! j = Some r -> delay !! j = Some d ->
      exists out r',
        y !! j = Some out /\ read_at self' r = Ok out /\
        rp' !! j = Some r' /\ in_range (N self) r' /\
        congruent (N self) r' (inject_Z (wrap_wp (N self) (write_ptr self + 1)) - d).
Proof.
  intros Hwf [Hdelay Hd0] Hfuel.
  destruct fuel as [| [| f]]; [lia | lia |].
  pose proof (budget_delay_bound delay f Hd0 ltac:(lia)) as Hd.
  destruct Hwf as [HN Hwp Hrp HM Hlen Hmode].
  unfold update_delay_line. rewrite !bind_get.
  set (s1 := with_delay_line self (<[Z.to_nat (write_ptr self) := x]> (delay_line self))).
  rewrite (bind_ok _ _ _ tt s1).
  2:{ unfold setitem_delay_line. rewrite np_setitem_Z by lia. reflexivity. }
  rewrite (bind_ok _ _ s1 tt (with_write_ptr s1 (write_ptr self + 1)) eq_refl).
  rewrite bind_get, range_0_nat.
  set (s0 := with_write_ptr s1 (write_ptr self + 1)).
  destruct (update_loop_spec f delay (length (read_ptr self)) 0%nat s0
              (replicate (length (read_ptr self)) 0))
    as (y' & rp' & Hloop & Hrp' & Hlen' & Hy' & _ & Hin);
    simpl; try assumption; try lia.
  { rewrite length_insert. exact Hlen. }
  { apply length_replicate. }
  simpl in Hloop, Hrp', Hlen', Hin. change (read_ptr s0) with (read_ptr self).
  rewrite Hloop. exists y', rp'. rewrite length_replicate in Hy'.
  assert (Hwp' : (0 <= wrap_wp (N self) (write_ptr self + 1) < N self)%Z)
    by (apply wrap_wp_bounds; lia).
  destruct (length (read_ptr self)) as [| n] eqn:E; [lia |].
  split; [reflexivity |].
  split.
  { split; simpl; try assumption.
    - lia.
    - rewrite length_insert. exact Hlen. }
  split; [exact Hlen' |]. split; [exact Hy' |].
  intros j r d Hr Hdj.
  pose proof (lookup_lt_Some _ _ _ Hr) as Hj.
  destruct (Hin j r d ltac:(lia) Hr Hdj) as (out & r' & E1 & E2 & E3 & E4).
  exists out, r'. split; [exact E1 |]. split.
  { rewrite <- E2. apply read_at_ext; reflexivity. }
  split; [exact E3 |].
  split; [exact (Forall_lookup_1 _ _ _ _ Hrp' E3) |].
  eapply congruent_trans; [exact E4 |].
  apply congruent_sym, congruent_wrap_wp.
Qed.




End StepSpec.

(** * A delay line with constant integer delays *)

Lemma ring_writes_snoc n : forall xs wp0 buf x,
  ring_writes n wp0 (xs ++ [x]) buf =
    (wrap_wp n (fst (ring_writes n wp0 xs buf) + 1),
     <[Z.to_nat (fst (ring_writes n wp0 xs buf)) := x]> (snd (ring_writes n wp0 xs buf))).
Proof.
  induction xs as [| a xs IH]; intros wp0 buf x; [reflexivity |].
  cbn [app ring_writes]. apply IH.
Qed.

Lemma mod_neq_of_close n a b :
  (0 < n)%Z -> (0 < b - a < n)%Z -> (a mod n <> b mod n)%Z.
Proof.
  intros Hn Hab E.
  assert (H : ((b - a) mod n = 0)%Z).
  { rewrite Zminus_mod, E, Z.sub_diag. apply Z.mod_0_l. lia. }
  rewrite Z.mod_small in H by lia. lia.
Qed.

(** After the samples [xs] have been written into a zero buffer of [n]
    slots from slot 0: the write pointer is [length xs mod n], the last [n]
    samples sit at their index modulo [n], and the slots not yet reached
    still hold 0. *)
Lemma ring_writes_lookup (n : Z) (xs : list Q) :
  (0 < n)%Z ->
  let wb := ring_writes n 0 xs (replicate (Z.to_nat n) 0) in
  fst wb = (Z.of_nat (length xs) mod n)%Z /\
  length (snd wb) = Z.to_nat n /\
  (forall j : nat, (j < length xs)%nat -> (Z.of_nat (length xs) - Z.of_nat j <= n)%Z ->
     snd wb !! Z.to_nat (Z.of_nat j mod n) = xs !! j) /\
  (forall idx : nat, (length xs <= idx)%nat -> (Z.of_nat idx < n)%Z ->
     snd wb !! idx = Some 0).
Proof.
  intros Hn. induction xs as [| x xs IH] using rev_ind; cbv zeta.
  - simpl. split; [rewrite Z.mod_0_l by lia; reflexivity |].
    split; [apply length_replicate |]. split; [intros j Hj; lia |].
    intros idx _ Hidx. apply lookup_replicate_2. lia.
  - cbv zeta in IH. destruct IH as (Hwp & Hlen & Hold & Hnew).
    rewrite ring_writes_snoc. cbn [fst snd].
    set (wb := ring_writes n 0 xs (replicate (Z.to_nat n) 0)) in *.
    rewrite length_app. cbn [length].
    pose proof (Z.mod_pos_bound (Z.of_nat (length xs)) n Hn) as Hb.
    split.
    { rewrite wrap_wp_mod by lia. rewrite Hwp, Zplus_mod_idemp_l.
      f_equal. lia. }
    split; [rewrite length_insert; exact Hlen |].
    split.
    + intros j Hj Hclose.
      destruct (decide (j = length xs)) as [-> | Hne].
      * rewrite Hwp, list_lookup_insert_eq by lia.
        rewrite lookup_app_r, Nat.sub_diag by lia. reflexivity.
      * rewrite list_lookup_insert_ne.
        2:{ rewrite Hwp. intros E. apply Z2Nat.inj in E; try lia.
            - symmetry in E. revert E. apply mod_neq_of_close; lia.
            - apply Z.mod_pos_bound. lia. }
        rewrite lookup_app_l by lia. apply Hold; lia.
    + intros idx Hidx Hn'.
      rewrite list_lookup_insert_ne.
      2:{ rewrite Hwp, Z.mod_small by lia. lia. }
      apply Hnew; lia.
Qed.

(** A position of [[0, n)] that is a whole number of buffer lengths away from
    the integer [a] is [a mod n]. *)
Lemma congruent_integer n r a :
  (0 < n)%Z -> in_range n r -> congruent n r (inject_Z a) ->
  r == inject_Z (a mod n).
Proof.
  intros Hn [H0 H1] [m Hm].
  assert (E : r == inject_Z (a + m * n)).
  { rewrite Hm, inject_Z_plus, inject_Z_mult. reflexivity. }
  rewrite E in H0, H1. rewrite E.
  change 0 with (inject_Z 0) in H0. rewrite <- Zle_Qle in H0. rewrite <- Zlt_Qlt in H1.
  rewrite <- (Z.mod_small (a + m * n) n) at 1 by lia.
  rewrite Z.mod_add by lia. reflexivity.
Qed.

(** Sample [t - D] of the input [xs], and 0 before the first [D] samples. *)
Definition delayed (xs : list Q) (t : nat) (D : Z) : Q :=
  if (Z.of_nat t <? D)%Z then 0 else default 0 (xs !! (t - Z.to_nat D)%nat).

Lemma wrap_once_congruent wp n d : congruent n (wrap_once wp n d) (inject_Z wp - d).
Proof.
  unfold wrap_once. cbv zeta. destruct (Qlt_bool _ 0).
  - exists 1%Z. change (inject_Z 1) with 1. ring.
  - exists 0%Z. change (inject_Z 0) with 0. ring.
Qed.

Lemma congruent_integer_minus n r a b :
  (0 < n)%Z -> in_range n r -> congruent n r (inject_Z a - inject_Z b) ->
  r == inject_Z ((a - b) mod n).
Proof.
  intros Hn Hr [m Hm]. apply congruent_integer; [exact Hn | exact Hr |].
  exists m. rewrite Hm. unfold Z.sub. rewrite inject_Z_plus, inject_Z_opp. ring.
Qed.

Section IntegerDelays.

Variable np_pi : Q.
Variables np_sin np_cos : Q -> Q.

Local Abbreviation drive := (run np_pi np_sin np_cos).
Local Abbreviation read := (read_at np_pi np_sin np_cos).

(** In Linear mode a read pointer at the integer position [k] reads
    [buffer[k]]. *)
Lemma linear_read_at_integer self r k :
  interpolation self = "Linear" ->
  (0 < N self)%Z -> length (delay_line self) = Z.to_nat (N self) ->
  (0 <= k < N self)%Z -> r == inject_Z k ->
  exists out, read self r = Ok out /\
              out == default 0 (delay_line self !! Z.to_nat k).
Proof.
  intros Hmode HN Hlen Hk Hr.
  assert (Hfloor : Qfloor r = k) by (rewrite Hr; apply Qfloor_Z).
  unfold read_at, _interpolated_read. rewrite Hmode, Hfloor.
  rewrite (bool_decide_eq_false_2 ("Linear" = "Lagrange")) by discriminate.
  rewrite (bool_decide_eq_true_2 ("Linear" = "Linear")) by reflexivity.
  unfold tbind, tret.
  rewrite (load_ok self _ Hlen (np_mod_range _ _ HN)), (load_ok self _ Hlen Hk).
  eexists. split; [reflexivity |].
  rewrite Hr. ring.
Qed.

Lemma run_integer_delays (Ds : list Z) fuel : forall rest past self,
  wf self -> interpolation self = "Linear" ->
  length (read_ptr self) = length Ds ->
  Forall (fun D => (0 < D < N self)%Z) Ds ->
  (write_ptr self, delay_line self) =
    ring_writes (N self) 0 past (replicate (Z.to_nat (N self)) 0) ->
  (forall i D r, Ds !! i = Some D -> read_ptr self !! i = Some r ->
     r == inject_Z ((Z.of_nat (length past) - D) mod N self)) ->
  (2 + budget_delay (map inject_Z Ds) <= fuel)%nat ->
  exists ys self',
    drive fuel (map (fun x => (x, map inject_Z Ds)) rest) self = (Ok ys, self') /\
    length ys = length rest /\
    forall k y, ys !! k = Some y -> forall i D, Ds !! i = Some D ->
      exists v, y !! i = Some v /\ v == delayed (past ++ rest) (length past + k) D.
Proof.
  induction rest as [| x rest IH]; intros past self Hwf Hmode HM HDs Hring Hrp Hfuel.
  - exists [], self. split; [reflexivity |]. split; [reflexivity |].
    intros k y Hk. rewrite lookup_nil in Hk. discriminate.
  - assert (Hvalid : valid_delay (length (read_ptr self)) (map inject_Z Ds)).
    { split; [rewrite length_map; congruence |].
      apply Forall_fmap. eapply Forall_impl; [exact HDs |].
      intros D HD. simpl in HD. change (inject_Z 0 <= inject_Z D).
      rewrite <- Zle_Qle. lia. }
    destruct (update_delay_line_spec np_pi np_sin np_cos fuel x _ self Hwf Hvalid Hfuel)
      as (y & rp' & Hstep & Hwf' & Hlen' & Hy & Hall).
    cbv zeta in Hstep, Hwf', Hall.
    set (self' := mkDelayLine (N self) (wrap_wp (N self) (write_ptr self + 1)) rp'
                    (<[Z.to_nat (write_ptr self) := x]> (delay_line self))
                    (interpolation self)) in *.
    pose proof (wf_N _ Hwf) as HN.
    destruct (ring_writes_lookup (N self) past HN) as (Hwp & _).
    rewrite <- Hring in Hwp. cbn [fst] in Hwp.
    assert (Hring' : (wrap_wp (N self) (write_ptr self + 1),
                      <[Z.to_nat (write_ptr self) := x]> (delay_line self)) =
                     ring_writes (N self) 0 (past ++ [x])
                       (replicate (Z.to_nat (N self)) 0)).
    { rewrite ring_writes_snoc, <- Hring. reflexivity. }
    destruct (ring_writes_lookup (N self) (past ++ [x]) HN) as (_ & Hblen & Hold & Hnew).
    rewrite <- Hring' in Hold, Hnew, Hblen. cbn [snd] in Hold, Hnew, Hblen.
    rewrite length_app in Hold, Hnew. cbn [length] in Hold, Hnew.
    cbn [map run]. rewrite (bind_ok _ _ _ _ _ Hstep).
    destruct (IH (past ++ [x]) self' Hwf') as (ys & self'' & Hrun & Hys & Hout).
    { exact Hmode. }
    { simpl. congruence. }
    { exact HDs. }
    { exact Hring'. }
    { intros i D r' HD Hr'. simpl in Hr'.
      destruct (lookup_lt_is_Some_2 (read_ptr self) i) as [r Hr].
      { rewrite HM. eapply lookup_lt_Some. exact HD. }
      destruct (Hall i r (inject_Z D) Hr) as (_ & r'' & _ & _ & Hr'' & Hin & Hcong).
      { rewrite list_lookup_fmap, HD. reflexivity. }
      rewrite Hr' in Hr''. injection Hr'' as <-.
      rewrite (congruent_integer_minus _ _ _ _ HN Hin Hcong).
      rewrite wrap_wp_mod by (destruct Hwf; assumption).
      rewrite Hwp, Zplus_mod_idemp_l, Zminus_mod_idemp_l.
      rewrite length_app. cbn [length]. simpl N.
      replace (Z.of_nat (length past + 1)) with (Z.of_nat (length past) + 1)%Z by lia.
      reflexivity. }
    { exact Hfuel. }
    rewrite (bind_ok _ _ _ _ _ Hrun). unfold ret.
    exists (y :: ys), self''. split; [reflexivity |].
    split; [simpl; congruence |].
    intros [| k] y0 Hk i D HD.
    + simpl in Hk. injection Hk as <-.
      destruct (lookup_lt_is_Some_2 (read_ptr self) i) as [r Hr].
      { rewrite HM. eapply lookup_lt_Some. exact HD. }
      destruct (Hall i r (inject_Z D) Hr) as (out & _ & Hyi & Hread & _).
      { rewrite list_lookup_fmap, HD. reflexivity. }
      pose proof (Forall_lookup_1 _ _ _ _ HDs HD) as HDr. simpl in HDr.
      destruct (linear_read_at_integer self' r
                  ((Z.of_nat (length past) - D) mod N self))
        as (out' & Hread' & Hval).
      { exact Hmode. } { exact HN. } { exact Hblen. }
      { apply Z.mod_pos_bound. exact HN. }
      { exact (Hrp i D r HD Hr). }
      rewrite Hread in Hread'. injection Hread' as <-.
      exists out. split; [exact Hyi |]. rewrite Hval.
      unfold delayed. rewrite Nat.add_0_r.
      destruct (Z.ltb_spec (Z.of_nat (length past)) D) as [Hlt | Hge].
      * replace ((Z.of_nat (length past) - D) mod N self)%Z
          with (Z.of_nat (length past) - D + N self)%Z.
        2:{ rewrite <- (Z.mod_small (Z.of_nat (length past) - D + N self) (N self)) by lia.
            rewrite <- (Z.mod_add (Z.of_nat (length past) - D) 1 (N self)) by lia.
            f_equal. lia. }
        simpl delay_line. rewrite Hnew by lia. reflexivity.
      * replace (Z.of_nat (length past) - D)%Z
          with (Z.of_nat (length past - Z.to_nat D)) by lia.
        simpl delay_line. rewrite Hold by lia.
        replace (past ++ x :: rest) with ((past ++ [x]) ++ rest)
          by (rewrite <- app_assoc; reflexivity).
        rewrite (lookup_app_l (past ++ [x])) by (rewrite length_app; simpl; lia).
        reflexivity.
    + simpl in Hk. destruct (Hout k y0 Hk i D HD) as (v & Hv & Hval).
      exists v. split; [exact Hv |]. rewrite Hval.
      rewrite <- app_assoc, length_app. cbn [length app].
      replace (length past + 1 + k)%nat with (length past + S k)%nat by lia.
      reflexivity.
Qed.

(** X4.  A Linear delay line whose read pointers are set to integer
    delays [D_i] of [(0, N)] with [set_delays], and driven with the same delays
    at every call, is a pure delay: for a run of any length, output [i] of
    call [t] is the input of call [t - D_i], and 0 during the first [D_i]
    calls. *)
Theorem linear_integer_delay_line (N0 M0 : Z) (dl : DelayLine) (Ds : list Z)
    (xs : list Q) (fuel : nat) :
  __init__ N0 M0 "Linear" = Ok dl ->
  length Ds = Z.to_nat M0 ->
  Forall (fun D => (0 < D < N0)%Z) Ds ->
  (2 + budget_delay (map inject_Z Ds) <= fuel)%nat ->
  exists ys self',
    (set_delays (map inject_Z Ds) ;;
     drive fuel (map (fun x => (x, map inject_Z Ds)) xs)) dl = (Ok ys, self') /\
    length ys = length xs /\
    forall t y, ys !! t = Some y -> forall i D, Ds !! i = Some D ->
      exists v, y !! i = Some v /\ v == delayed xs t D.
Proof.
  intros Hinit HM HDs Hfuel.
  pose proof (init_wf _ _ _ _ Hinit) as Hwf.
  apply init_inv in Hinit as (HN & HM0 & _ & ->).
  assert (Hd : Forall (fun d => 0 < d /\ d < inject_Z N0) (map inject_Z Ds)).
  { apply Forall_fmap. eapply Forall_impl; [exact HDs |].
    intros D HD. simpl in HD. split.
    - change (inject_Z 0 < inject_Z D). rewrite <- Zlt_Qlt. lia.
    - simpl. rewrite <- Zlt_Qlt. lia. }
  set (dl := mkDelayLine N0 0 (replicate (Z.to_nat M0) 0)
               (replicate (Z.to_nat N0) 0) "Linear") in *.
  assert (Hset : set_delays (map inject_Z Ds) dl =
                 (Ok tt, with_read_ptr dl (map (wrap_once 0 N0) (map inject_Z Ds)))).
  { apply (set_delays_success (map inject_Z Ds) dl); [exact Hd |].
    simpl. rewrite length_map, length_replicate. exact HM. }
  rewrite (bind_ok _ _ _ _ _ Hset).
  destruct (run_integer_delays Ds fuel xs []
              (with_read_ptr dl (map (wrap_once 0 N0) (map inject_Z Ds))))
    as (ys & self' & Hrun & Hys & Hout).
  - destruct Hwf as [H1 H2 H3 H4 H5 H6]. split; simpl in *; try assumption.
    + apply Forall_fmap. eapply Forall_impl; [exact Hd |].
      intros d [Hd0 HdN]. apply wrap_once_in_range; [lia | assumption | assumption].
    + rewrite !length_map, HM. lia.
  - reflexivity.
  - simpl. rewrite !length_map. reflexivity.
  - exact HDs.
  - reflexivity.
  - intros i D r HD Hr. simpl in Hr.
    rewrite !list_lookup_fmap, HD in Hr. injection Hr as <-.
    pose proof (Forall_lookup_1 _ _ _ _ HDs HD) as HDr. simpl in HDr.
    apply congruent_integer_minus; [exact HN | | apply wrap_once_congruent].
    apply wrap_once_in_range; [lia | |].
    + change (inject_Z 0 < inject_Z D). rewrite <- Zlt_Qlt. lia.
    + rewrite <- Zlt_Qlt. lia.
  - exact Hfuel.
  - exists ys, self'. split; [exact Hrun |]. split; [exact Hys |].
    intros t y Ht i D HD. apply (Hout t y Ht i D HD).
Qed.

End IntegerDelays.

(** Two readers at delays 1 and 3 on a delay line of capacity 4. *)
Lemma linear_integer_delay_line_witness :
  __init__ 4 2 "Linear" = Ok (mkDelayLine 4 0 [0; 0] [0; 0; 0; 0] "Linear") /\
  Forall (fun D => (0 < D < 4)%Z) [1; 3]%Z /\
  (2 + budget_delay (map inject_Z [1; 3]%Z) <= 5)%nat /\
  exists ys self',
    (set_delays [1; 3] ;;
     run approx_pi approx_sin approx_cos 5
       (map (fun x => (x, [1; 3])) [10; 20; 30; 40; 50; 60]))
      (mkDelayLine 4 0 [0; 0] [0; 0; 0; 0] "Linear") = (Ok ys, self') /\
    length ys = 6%nat /\
    forall t y, ys !! t = Some y -> forall i D, [1; 3]%Z !! i = Some D ->
      exists v, y !! i = Some v /\ v == delayed [10; 20; 30; 40; 50; 60] t D.
Proof.
  assert (HDs : Forall (fun D => (0 < D < 4)%Z) [1; 3]%Z) by (repeat constructor; lia).
  assert (Hfuel : (2 + budget_delay (map inject_Z [1; 3]%Z) <= 5)%nat)
    by (apply Nat.leb_le; reflexivity).
  split; [reflexivity |]. split; [exact HDs |]. split; [exact Hfuel |].
  exact (linear_integer_delay_line approx_pi approx_sin approx_cos 4 2 _ [1; 3]%Z
           [10; 20; 30; 40; 50; 60] 5 eq_refl eq_refl HDs Hfuel).
Defined.

(** * Delay arrays of the wrong length, and repeated [set_delays] *)

Lemma for_ext {A B} (b1 b2 : A -> B -> M B) : forall (l : list A),
  (forall i, i ∈ l -> forall acc self, b1 i acc self = b2 i acc self) ->
  forall acc self, for_ l b1 acc self = for_ l b2 acc self.
Proof.
  induction l as [| i l IH]; intros Hb acc self; [reflexivity |].
  cbn [for_]. unfold bind. rewrite (Hb i) by (left).
  destruct (b2 i acc self) as [[acc' | e] self']; [| reflexivity].
  apply IH. intros j Hj. apply Hb. right. exact Hj.
Qed.


Lemma np_getitem_app_l {A} (a b : list A) (i : nat) :
  (i < length a)%nat -> np_getitem (a ++ b) (Z.of_nat i) = np_getitem a (Z.of_nat i).
Proof.
  intros Hi. destruct (lookup_lt_is_Some_2 a i Hi) as [x Hx].
  rewrite (np_getitem_nat a i x Hx).
  apply np_getitem_nat. rewrite lookup_app_l by exact Hi. exact Hx.
Qed.


Section DelayLengths.

Variable np_pi : Q.
Variables np_sin np_cos : Q -> Q.

Local Abbreviation body := (update_delay_line_body np_pi np_sin np_cos).
Local Abbreviation step := (update_delay_line np_pi np_sin np_cos).

(** X5.  [update_delay_line] does not check the length of [delay]: the
    entries beyond the number of read pointers are never read, and the call
    does exactly what it does without them. *)
Theorem update_delay_line_ignores_extra_delays fuel x delay extra self :
  (length (read_ptr self) <= length delay)%nat ->
  update_delay_line np_pi np_sin np_cos fuel x (delay ++ extra) self =
  update_delay_line np_pi np_sin np_cos fuel x delay self.
Proof.
  intros Hlen. unfold update_delay_line. rewrite !bind_get.
  destruct (setitem_delay_line (write_ptr self) x self) as [[[] | e] s1] eqn:E1.
  2:{ rewrite !(bind_raise _ _ _ _ _ E1). reflexivity. }
  assert (Hrp : read_ptr s1 = read_ptr self).
  { unfold setitem_delay_line in E1.
    destruct (np_setitem _ _ _); [injection E1 as <-; reflexivity | discriminate]. }
  rewrite !(bind_ok _ _ _ _ _ E1).
  rewrite !(bind_ok _ _ s1 tt (with_write_ptr s1 (write_ptr self + 1)) eq_refl).
  rewrite !bind_get. cbn [read_ptr with_write_ptr]. rewrite Hrp, range_0_nat.
  apply for_ext. intros i Hi acc s.
  apply list_elem_of_fmap in Hi as (j & -> & Hj).
  apply list_elem_of_In, in_seq in Hj.
  unfold update_delay_line_body.
  rewrite np_getitem_app_l by lia. reflexivity.
Qed.



(** X7.  [set_delays] places the read pointers from the write pointer
    and the delays alone: a second successful call replaces the effect of
    the first. *)
Theorem set_delays_overrides delay1 delay2 self :
  Forall (fun d => 0 < d /\ d < inject_Z (N self)) delay1 ->
  Forall (fun d => 0 < d /\ d < inject_Z (N self)) delay2 ->
  length delay1 = length (read_ptr self) ->
  length delay2 = length (read_ptr self) ->
  (set_delays delay1 ;; set_delays delay2) self = set_delays delay2 self.
Proof.
  intros H1 H2 L1 L2.
  rewrite (bind_ok _ _ _ _ _ (set_delays_success delay1 self H1 L1)).
  rewrite (set_delays_success delay2 self H2 L2).
  rewrite set_delays_success; [reflexivity | exact H2 |].
  simpl. rewrite length_map. congruence.
Qed.

End DelayLengths.

(** * Accuracy of the Lagrange and Linear reads *)

(** A polynomial of degree at most 5. *)
Definition poly5 (a0 a1 a2 a3 a4 a5 : Q) (t : Q) : Q :=
  a0 + t * (a1 + t * (a2 + t * (a3 + t * (a4 + t * a5)))).

(** X8.  The Lagrange read is exact on polynomials of degree at most 5,
    at the position [k - 2 + d]: if the six samples it reads,
    [buffer[(k + i - 2) mod N]] for [i = 0 .. 5], are the values [p(i)] of
    such a polynomial, the read returns [p(d)]. *)
Theorem lagrange_read_polynomial (np_pi : Q) (np_sin np_cos : Q -> Q)
    (self : DelayLine) (k : Z) (d a0 a1 a2 a3 a4 a5 : Q) :
  (0 < N self)%Z -> length (delay_line self) = Z.to_nat (N self) ->
  (forall i, (0 <= i <= 5)%Z ->
     default 0 (delay_line self !! Z.to_nat ((k + i - 2) mod N self))
       == poly5 a0 a1 a2 a3 a4 a5 (inject_Z i)) ->
  exists out,
    fst (_interpolated_read np_pi np_sin np_cos self k d "Lagrange") = Ok out /\
    out == poly5 a0 a1 a2 a3 a4 a5 d.
Proof.
  intros HN Hlen Hp. unfold _interpolated_read.
  rewrite (bool_decide_eq_true_2 ("Lagrange" = "Lagrange")) by reflexivity.
  cbv zeta. rewrite fir_loop_ok; [| assumption | assumption | apply range_bounds].
  eexists. split; [reflexivity |].
  unfold fir_value.
  set (b := fun i => default 0 (delay_line self
                !! Z.to_nat (np_mod (k + i - Qfloor (inject_Z 5 / 2)) (N self)))).
  assert (Hb : forall i, (0 <= i <= 5)%Z -> b i == poly5 a0 a1 a2 a3 a4 a5 (inject_Z i)).
  { intros i Hi. unfold b. rewrite np_mod_pos by exact HN.
    change (Qfloor (inject_Z 5 / 2)) with 2%Z. apply Hp. exact Hi. }
  change (foldl (fun acc i => acc + default 0 (_frac_delay_lagrange 5 d !! Z.to_nat i) * b i)
            0 (range 0 (Z.of_nat (length (_frac_delay_lagrange 5 d))))
          == poly5 a0 a1 a2 a3 a4 a5 d).
  clearbody b.
  pose proof (Hb 0%Z ltac:(lia)) as H0. pose proof (Hb 1%Z ltac:(lia)) as H1.
  pose proof (Hb 2%Z ltac:(lia)) as H2. pose proof (Hb 3%Z ltac:(lia)) as H3.
  pose proof (Hb 4%Z ltac:(lia)) as H4. pose proof (Hb 5%Z ltac:(lia)) as H5.
  cbv -[Qmult Qdiv Qminus Qplus Qeq poly5].
  rewrite H0, H1, H2, H3, H4, H5.
  unfold poly5, inject_Z. field.
Qed.

(** The squares [0, 1, 4, ..., 49] read at [k = 2], [d = 1/2]: the value is
    [(1/2)^2], the square at position [k - 2 + d]. *)
Lemma lagrange_read_polynomial_witness :
  let self := mkDelayLine 8 0 [2.5] [0; 1; 4; 9; 16; 25; 36; 49] "Lagrange" in
  exists out,
    fst (_interpolated_read approx_pi approx_sin approx_cos self 2 (1 # 2) "Lagrange")
      = Ok out /\
    out == poly5 0 0 1 0 0 0 (1 # 2).
Proof.
  intros self.
  apply (lagrange_read_polynomial approx_pi approx_sin approx_cos self 2 (1 # 2)
           0 0 1 0 0 0).
  - simpl. lia.
  - reflexivity.
  - intros i Hi.
    assert (E : i = 0%Z \/ i = 1%Z \/ i = 2%Z \/ i = 3%Z \/ i = 4%Z \/ i = 5%Z) by lia.
    destruct E as [-> | [-> | [-> | [-> | [-> | ->]]]]]; reflexivity.
Defined.



(** * Concrete calls *)




(** Three delays for two readers. *)
Lemma update_delay_line_ignores_extra_delays_witness :
  let self := mkDelayLine 4 0 [0; 0] [0; 0; 0; 0] "Linear" in
  update_delay_line approx_pi approx_sin approx_cos 5 1 ([2; 3] ++ [100]) self =
  update_delay_line approx_pi approx_sin approx_cos 5 1 [2; 3] self.
Proof.
  intros self.
  apply (update_delay_line_ignores_extra_delays approx_pi approx_sin approx_cos
           5 1 [2; 3] [100] self).
  simpl. lia.
Defined.


Lemma set_delays_overrides_witness :
  let self := mkDelayLine 10 0 [0] (replicate 10 0) "Linear" in
  (set_delays [3] ;; set_delays [4.5]) self = set_delays [4.5] self.
Proof.
  intros self.
  apply (set_delays_overrides [3] [4.5] self).
  - repeat constructor; unfold Qlt; simpl; lia.
  - repeat constructor; unfold Qlt; simpl; lia.
  - reflexivity.
  - reflexivity.
Defined.

(** * The pointer arithmetic in binary64

    The methods of [DelayLine] embedded a third time, with Python floats and
    numpy [float64] entries as IEEE 754 binary64 numbers: the Standard
    Library's [spec_float] with precision 53 and maximal exponent 1024, whose
    operations round to nearest, ties to even.  This is the model in which
    rounding decides what a method does: whether [self.read_ptr[i] += self.N]
    changes the pointer, and whether the sum stays below [N].  [sin] and
    [cos], which numpy takes from the C library, are Section variables. *)

Module Float64.

Definition float : Type := spec_float.

Definition of_Z (z : Z) : float := binary_normalize 53 1024 z 0 false.
Definition add : float -> float -> float := SFadd 53 1024.
Definition sub : float -> float -> float := SFsub 53 1024.
Definition mul : float -> float -> float := SFmul 53 1024.
Definition div : float -> float -> float := SFdiv 53 1024.
Definition ltb : float -> float -> bool := SFltb.
Definition leb : float -> float -> bool := SFleb.
Definition eqb : float -> float -> bool := SFeqb.

(** [int(np.floor(x))] *)
Definition int_floor (x : float) : result Z :=
  match x with
  | S754_zero _ => Ok 0%Z
  | S754_finite s m e =>
      Ok (if (0 <=? e)%Z then (cond_Zopp s (Zpos m) * 2 ^ e)%Z
          else (cond_Zopp s (Zpos m) / 2 ^ (- e))%Z)
  | S754_infinity _ => Raise OverflowError
  | S754_nan => Raise (ValueError "cannot convert float NaN to integer")
  end.

Record DelayLine : Type := mkDelayLine {
  N : Z;
  write_ptr : Z;
  read_ptr : list float;
  delay_line : list float;
  interpolation : string
}.

Definition np_zeros (n : Z) : list float := replicate (Z.to_nat n) (of_Z 0).
Definition np_ones (n : Z) : list float := replicate (Z.to_nat n) (of_Z 1).

(** [DelayLine.__init__] *)
Definition __init__ (N0 num_read_ptrs : Z) (interp : string) : result DelayLine :=
  if (N0 <=? 0)%Z then
    Raise (ValueError "Delay Line size must be greater than zero.")
  else if (num_read_ptrs <=? 0)%Z then
    Raise (ValueError "Number of read pointers must be greater than zero.")
  else if bool_decide (interp ≠ "Linear") && bool_decide (interp ≠ "Lagrange")
          && bool_decide (interp ≠ "Sinc") then
    Raise (ValueError "Interpolation parameter can be: `Linear`, `Lagrange`, or `Sinc`")
  else
    Ok {| N := N0;
          write_ptr := 0;
          read_ptr := np_zeros num_read_ptrs;
          delay_line := np_zeros N0;
          interpolation := interp |}.

(** Methods as state transformers that may raise, as above. *)
Definition M (A : Type) : Type := DelayLine -> result A * DelayLine.

Definition ret {A} (a : A) : M A := fun self => (Ok a, self).
Definition raise {A} (e : exn) : M A := fun self => (Raise e, self).
Definition bind {A B} (m : M A) (k : A -> M B) : M B :=
  fun self =>
    match m self with
    | (Ok a, self') => k a self'
    | (Raise e, self') => (Raise e, self')
    end.
Definition lift {A} (r : result A) : M A := fun self => (r, self).
Definition get {A} (f : DelayLine -> A) : M A := fun self => (Ok (f self), self).

Declare Scope float_method_scope.
Delimit Scope float_method_scope with fmethod.
Bind Scope float_method_scope with M.
Notation "x <- m ;; k" := (bind m (fun x => k))
  (at level 100, m at next level, k at level 200, right associativity)
  : float_method_scope.
Notation "m ;; k" := (bind m (fun _ => k))
  (at level 100, k at level 200, right associativity) : float_method_scope.
Local Open Scope float_method_scope.

Definition with_write_ptr (self : DelayLine) (v : Z) : DelayLine :=
  mkDelayLine (N self) v (read_ptr self) (delay_line self) (interpolation self).
Definition with_read_ptr (self : DelayLine) (l : list float) : DelayLine :=
  mkDelayLine (N self) (write_ptr self) l (delay_line self) (interpolation self).
Definition with_delay_line (self : DelayLine) (l : list float) : DelayLine :=
  mkDelayLine (N self) (write_ptr self) (read_ptr self) l (interpolation self).

Definition set_write_ptr (v : Z) : M unit := fun self =>
  (Ok tt, with_write_ptr self v).

Definition setitem_read_ptr (i : Z) (v : float) : M unit := fun self =>
  match np_setitem (read_ptr self) i v with
  | Ok l => (Ok tt, with_read_ptr self l)
  | Raise e => (Raise e, self)
  end.

Definition setitem_delay_line (i : Z) (v : float) : M unit := fun self =>
  match np_setitem (delay_line self) i v with
  | Ok l => (Ok tt, with_delay_line self l)
  | Raise e => (Raise e, self)
  end.

Definition getitem_read_ptr (i : Z) : M float := fun self =>
  (np_getitem (read_ptr self) i, self).

Definition getitem_delay_line (i : Z) : M float := fun self =>
  (np_getitem (delay_line self) i, self).

Fixpoint for_ {A B} (l : list A) (body : A -> B -> M B) (acc : B) : M B :=
  match l with
  | [] => ret acc
  | i :: l' => acc' <- body i acc ;; for_ l' body acc'
  end.

Fixpoint while_ (fuel : nat) (cond : M bool) (body : M unit) : M unit :=
  match fuel with
  | O => raise Timeout
  | S fuel' => c <- cond ;; if (c : bool) then body ;; while_ fuel' cond body else ret tt
  end.

(** [DelayLine.set_delays] *)
Definition set_delays_body (delay : list float) (i : Z) (_ : unit) : M unit :=
  wp <- get write_ptr ;;
  d <- lift (np_getitem delay i) ;;
  setitem_read_ptr i (sub (of_Z wp) d) ;;
  r <- getitem_read_ptr i ;;
  if ltb r (of_Z 0) then
    n <- get N ;;
    r <- getitem_read_ptr i ;;
    setitem_read_ptr i (add r (of_Z n))
  else ret tt.

Definition set_delays (delay : list float) : M unit :=
  if existsb (fun d => leb d (of_Z 0)) delay then
    raise (ValueError "Delays must be non-negative numbers")
  else
  len_rp <- get (fun self => length (read_ptr self)) ;;
  if negb (length delay =? len_rp)%nat then
    raise (ValueError "Length of delay array should match number of read pointers")
  else
  n <- get N ;;
  if existsb (fun d => leb (of_Z n) d) delay then
    raise (RuntimeError
      "Delay greater than delay line length has been encountered. Considerusing a longer delay line")
  else
  for_ (range 0 (Z.of_nat len_rp)) (set_delays_body delay) tt.

(** [DelayLine._frac_delay_lagrange] *)
Definition _frac_delay_lagrange (order : Z) (delay : float) : list float :=
  let n := range 0 (order + 1) in
  let h := np_ones (order + 1) in
  foldl (fun h k =>
           let index := filter (fun j => j ≠ k) (range 0 (order + 1)) in
           fancy_set h index
             (zip_with (fun hj nj => div (mul hj (sub delay (of_Z k))) (of_Z (nj - k)))
                       (fancy_get (of_Z 0) h index) (fancy_get 0%Z n index)))
        h (range 0 (order + 1)).

(** The convolution loop of the Lagrange and Sinc branches. *)
Fixpoint fir_loop (h : list float) (k off : Z) (idx : list Z) (out : float) : M float :=
  match idx with
  | [] => ret out
  | i :: idx' =>
      c <- lift (np_getitem h i) ;;
      n <- get N ;;
      x <- getitem_delay_line (np_mod (k + i - off) n) ;;
      fir_loop h k off idx' (add out (mul c x))
  end.

Section Interpolation.

(** numpy's [sin] and [cos]; [np.pi] is the binary64 number nearest to pi. *)
Variables np_sin np_cos : float -> float.

Definition np_pi : float := S754_finite false 7074237752028440 (-51).

(** [np.sinc(x)]: [y = pi * where(x == 0, 1.0e-20, x); sin(y) / y] *)
Definition np_sinc (x : float) : float :=
  let y := mul np_pi (if eqb x (of_Z 0) then div (of_Z 1) (of_Z (10 ^ 20)) else x) in
  div (np_sin y) y.

(** [np.hanning(M)] *)
Definition np_hanning (m : Z) : list float :=
  if (m <? 1)%Z then []
  else if (m =? 1)%Z then [of_Z 1]
  else map (fun n => add (div (of_Z 1) (of_Z 2))
                         (mul (div (of_Z 1) (of_Z 2))
                              (np_cos (div (mul np_pi (of_Z n)) (of_Z (m - 1))))))
           (range2 (1 - m) m).

(** [DelayLine._frac_delay_sinc] *)
Definition _frac_delay_sinc (sinc_samples : Z) (sinc_window : list float) (delay : float)
  : result (list float) :=
  np_mul mul sinc_window
    (map (fun n => np_sinc (sub (sub (of_Z n) (div (of_Z (sinc_samples - 1)) (of_Z 2)))
                                delay))
         (range 0 sinc_samples)).

(** [DelayLine._interpolated_read] *)
Definition _interpolated_read (read_ptr_integer : Z) (d : float) (method : string)
  : M float :=
  if bool_decide (method = "Lagrange") then
    let order := 5%Z in
    let h_lagrange := _frac_delay_lagrange order d in
    fir_loop h_lagrange read_ptr_integer (order / 2)
             (range 0 (Z.of_nat (length h_lagrange))) (of_Z 0)
  else if bool_decide (method = "Linear") then
    n <- get N ;;
    b1 <- getitem_delay_line (np_mod (read_ptr_integer + 1) n) ;;
    b0 <- getitem_delay_line read_ptr_integer ;;
    ret (add (mul d b1) (mul (sub (of_Z 1) d) b0))
  else if bool_decide (method = "Sinc") then
    let sinc_samples := 11%Z in
    let sinc_window := np_hanning sinc_samples in
    h_sinc <- lift (_frac_delay_sinc sinc_samples sinc_window d) ;;
    fir_loop h_sinc read_ptr_integer (sinc_samples / 2) (range 0 sinc_samples) (of_Z 0)
  else
    raise (ValueError "Interpolation parameter can be: `Linear`, `Lagrange`, or `Sinc`").

(** [while (self.read_ptr[i] < 0): self.read_ptr[i] += self.N] *)
Definition wrap_read_up (fuel : nat) (i : Z) : M unit :=
  while_ fuel (r <- getitem_read_ptr i ;; ret (ltb r (of_Z 0)))
              (r <- getitem_read_ptr i ;; n <- get N ;;
               setitem_read_ptr i (add r (of_Z n))).

(** [while (self.write_ptr >= self.N): self.write_ptr -= self.N] *)
Definition wrap_write (fuel : nat) : M unit :=
  while_ fuel (wp <- get write_ptr ;; n <- get N ;; ret (wp >=? n)%Z)
              (wp <- get write_ptr ;; n <- get N ;; set_write_ptr (wp - n)).

(** [while (self.read_ptr[i] >= self.N): self.read_ptr[i] -= self.N] *)
Definition wrap_read_down (fuel : nat) (i : Z) : M unit :=
  while_ fuel (r <- getitem_read_ptr i ;; n <- get N ;; ret (leb (of_Z n) r))
              (r <- getitem_read_ptr i ;; n <- get N ;;
               setitem_read_ptr i (sub r (of_Z n))).

(** [DelayLine.update_delay_line] *)
Definition update_delay_line_body (fuel : nat) (delay : list float) (i : Z)
  (y : list float) : M (list float) :=
  r <- getitem_read_ptr i ;;
  rpi <- lift (int_floor r) ;;
  let frac_del := sub r (of_Z rpi) in
  interp <- get interpolation ;;
  out <- _interpolated_read rpi frac_del interp ;;
  y <- lift (np_setitem y i out) ;;
  wp <- get write_ptr ;;
  d <- lift (np_getitem delay i) ;;
  setitem_read_ptr i (sub (of_Z wp) d) ;;
  wrap_read_up fuel i ;;
  wrap_write fuel ;;
  wrap_read_down fuel i ;;
  ret y.

Definition update_delay_line (fuel : nat) (x : float) (delay : list float)
  : M (list float) :=
  y <- get (fun self => replicate (length (read_ptr self)) (of_Z 0)) ;;
  wp <- get write_ptr ;;
  setitem_delay_line wp x ;;
  set_write_ptr (wp + 1) ;;
  len_rp <- get (fun self => length (read_ptr self)) ;;
  for_ (range 0 (Z.of_nat len_rp)) (update_delay_line_body fuel delay) y.

End Interpolation.

(** A float lies in [[0, n)]. *)
Definition in_range (n : Z) (r : float) : bool := leb (of_Z 0) r && ltb r (of_Z n).



(** ** A delay the first loop cannot absorb *)

(** The delay 1e17, and the object a fresh delay line of capacity 4 with one
    reader is in when the first loop is entered: the read pointer holds
    [1 - 1e17], which binary64 rounds to [-1e17]. *)
Definition delay_1e17 : float := of_Z (10 ^ 17).

Definition stuck : DelayLine :=
  mkDelayLine 4 1 [S754_finite true 6250000000000000 4] (np_zeros 4) "Linear".

Lemma stuck_read_ptr : read_ptr stuck = [sub (of_Z 1) delay_1e17].
Proof. reflexivity. Qed.

(** Adding [N = 4] to [-1e17] gives [-1e17] again: the loop body leaves the
    object as it is, and the loop test stays true. *)
Lemma add_N_absorbed :
  add (sub (of_Z 1) delay_1e17) (of_Z 4) = sub (of_Z 1) delay_1e17 /\
  ltb (sub (of_Z 1) delay_1e17) (of_Z 0) = true.
Proof. split; reflexivity. Qed.


Section Absorption.

Variables np_sin np_cos : float -> float.


End Absorption.


(** ** A delay that [set_delays] rounds up to [N] *)

Definition delay_2m70 : float := S754_finite false 4503599627370496 (-122).

(** C5.  [set_delays] accepts the delay [2^-70] on a delay line of
    capacity 10 with one reader ([0 < 2^-70 < 10]), and stores
    [(0 - 2^-70) + 10], which binary64 rounds to [10.0 = N]: the read pointer
    is not in [[0, N)], and the next call in Linear mode raises [IndexError]
    when it reads [delay_line[10]]. *)
Theorem set_delays_read_ptr_reaches_N :
  exists dl self,
    __init__ 10 1 "Linear" = Ok dl /\
    ltb (of_Z 0) delay_2m70 = true /\ ltb delay_2m70 (of_Z 10) = true /\
    set_delays [delay_2m70] dl = (Ok tt, self) /\
    read_ptr self = [of_Z 10] /\
    in_range 10 (of_Z 10) = false /\
    forall np_sin np_cos fuel x,
      fst (update_delay_line np_sin np_cos fuel x [delay_2m70] self) = Raise IndexError.
Proof.
  do 2 eexists. split; [reflexivity |]. split; [reflexivity |]. split; [reflexivity |].
  split; [vm_compute; reflexivity |]. split; [reflexivity |]. split; [reflexivity |].
  intros np_sin np_cos fuel x. vm_compute. reflexivity.
Qed.

End Float64.
